(** * data-cleanse-pipeline: the five-stage CSV cleansing pipeline of main.py

    A shallow embedding of [load_data], [standardize_column_names],
    [cleanse_data], [validate_data], [save_data] and [process_pipeline],
    together with the part of pandas they call (as pandas 2 behaves), and
    the properties of the pipeline stated in the specification. *)

From Stdlib Require Import ZArith QArith String Ascii List Bool Lia Sorted.
From stdpp Require Import base option list strings pretty gmap.

Local Open Scope string_scope.
Local Open Scope list_scope.

(** ** Text: the [str] methods used on column labels

    Labels are byte strings.  [strip] and [lower] are modelled on the ASCII
    range, as Python defines them there; bytes above 127 are kept as they
    are. *)

Module Str.

(** [str.isspace] on ASCII: TAB, LF, VT, FF, CR, the separators 0x1c-0x1f
    and the space. *)
Definition isspace (c : ascii) : bool :=
  let n := nat_of_ascii c in
  ((9 <=? n)%nat && (n <=? 13)%nat) || ((28 <=? n)%nat && (n <=? 32)%nat).

Definition lower_char (c : ascii) : ascii :=
  let n := nat_of_ascii c in
  if ((65 <=? n)%nat && (n <=? 90)%nat) then ascii_of_nat (n + 32) else c.

Fixpoint map (f : ascii -> ascii) (s : string) : string :=
  match s with
  | EmptyString => EmptyString
  | String c s' => String (f c) (map f s')
  end.

Fixpoint lstrip (s : string) : string :=
  match s with
  | EmptyString => EmptyString
  | String c s' => if isspace c then lstrip s' else s
  end.

Fixpoint rstrip (s : string) : string :=
  match s with
  | EmptyString => EmptyString
  | String c s' =>
      match rstrip s' with
      | EmptyString => if isspace c then EmptyString else String c EmptyString
      | r => String c r
      end
  end.

(** [s.strip()] *)
Definition strip (s : string) : string := rstrip (lstrip s).

(** [s.lower()] *)
Definition lower (s : string) : string := map lower_char s.

(** [s.replace(old, new)] for one-character [old] and [new]. *)
Definition replace (old new : ascii) (s : string) : string :=
  map (fun c => if Ascii.eqb c old then new else c) s.

End Str.

(** [col.strip().lower().replace(' ', '_')] *)
Definition standardize_name (col : string) : string :=
  Str.replace " " "_" (Str.lower (Str.strip col)).

(** Auxiliary notions for the proofs about labels: a string that does not
    start with white space, and the character function of [lower] followed
    by [replace ' ' '_']. *)
Definition no_lead (s : string) : Prop :=
  match s with
  | EmptyString => True
  | String c _ => Str.isspace c = false
  end.

Definition canon_char (c : ascii) : ascii :=
  let l := Str.lower_char c in if Ascii.eqb l " " then "_"%char else l.

(** ** The table: a pandas [DataFrame]

    A frame is held row-wise.  Every row carries its index label and its
    cells, aligned with the column labels; the dtype of every column is
    kept beside the labels.  read_csv produces four dtypes here: [Int64]
    (integers, never missing), [UInt64] (integers, none below zero, one at
    least beyond the int64 range; never missing), [Float64] (numbers, [NaN]
    where missing) and [Object] (text, [NaN] where missing; boolean columns
    behave as text columns everywhere in this program and are not set
    apart).  float64 values are modelled by exact rationals: rounding and
    the infinities are outside the model. *)

Inductive dtype := Int64 | UInt64 | Float64 | Object.

Inductive cell :=
| VInt (z : Z)
| VFloat (q : Q)
| VStr (s : string)
| NaN.

Record Row := mkRow { label : nat; cells : list cell }.

Record DataFrame := mkDataFrame {
  columns : list string;
  dtypes : list dtype;
  rows : list Row
}.

(** [pd.isna] *)
Definition isna (c : cell) : bool :=
  match c with NaN => true | _ => false end.

(** Equality of values as [duplicated] sees it: by value, two missing
    markers being equal. *)
Definition cell_eqb (a b : cell) : bool :=
  match a, b with
  | VInt x, VInt y => Z.eqb x y
  | VFloat x, VFloat y => Qeq_bool x y
  | VStr x, VStr y => String.eqb x y
  | NaN, NaN => true
  | _, _ => false
  end.

Fixpoint cells_eqb (r1 r2 : list cell) : bool :=
  match r1, r2 with
  | [], [] => true
  | a :: r1', b :: r2' => cell_eqb a b && cells_eqb r1' r2'
  | _, _ => false
  end.

(** What a cell may hold under each dtype. *)
Definition cell_fits (dt : dtype) (c : cell) : bool :=
  match dt, c with
  | (Int64 | UInt64), VInt _ => true
  | Float64, (VFloat _ | NaN) => true
  | Object, _ => true
  | _, _ => false
  end.

Fixpoint row_fits (dts : list dtype) (cs : list cell) : bool :=
  match dts, cs with
  | [], [] => true
  | dt :: dts', c :: cs' => cell_fits dt c && row_fits dts' cs'
  | _, _ => false
  end.

(** A well-formed frame: one dtype per label, and every row has one cell
    per column, of the column's dtype. *)
Definition well_formed (d : DataFrame) : bool :=
  (length (dtypes d) =? length (columns d))%nat
  && forallb (fun r => row_fits (dtypes d) (cells r)) (rows d).

(** The cells of column [j], top to bottom. *)
Definition column_cells (j : nat) (d : DataFrame) : list cell :=
  omap (fun r => cells r !! j) (rows d).

(** The positions of the columns labelled [name]. *)
Fixpoint positions_from (i : nat) (name : string) (cols : list string) : list nat :=
  match cols with
  | [] => []
  | c :: cols' =>
      if String.eqb c name then i :: positions_from (S i) name cols'
      else positions_from (S i) name cols'
  end.

Definition positions (name : string) (d : DataFrame) : list nat :=
  positions_from 0 name (columns d).

(** *** median *)

Definition numeric (dt : dtype) : bool :=
  match dt with Int64 | UInt64 | Float64 => true | Object => false end.

Definition number_of (c : cell) : option Q :=
  match c with
  | VInt z => Some (inject_Z z)
  | VFloat q => Some q
  | _ => None
  end.

Fixpoint insert_sorted (x : Q) (l : list Q) : list Q :=
  match l with
  | [] => [x]
  | y :: l' => if Qle_bool x y then x :: l else y :: insert_sorted x l'
  end.

Definition sort (l : list Q) : list Q := foldr insert_sorted [] l.

(** The median of the values given: the middle one of the sorted values,
    or the mean of the two middle ones; [None] (a NaN) when there is none. *)
Definition median (xs : list Q) : option Q :=
  let s := sort xs in
  let n := length s in
  if (n =? 0)%nat then None
  else if Nat.odd n then s !! (n / 2)%nat
  else a ← s !! (n / 2 - 1)%nat; b ← s !! (n / 2)%nat; Some ((a + b) / 2)%Q.

(** The median of column [j] over its values that are not missing
    ([skipna=True]). *)
Definition column_median (j : nat) (d : DataFrame) : option Q :=
  median (omap number_of (column_cells j d)).

(** [data.median(numeric_only=True)]: a Series with one entry per numeric
    column, under the column's label, in column order. *)
Definition df_median (d : DataFrame) : list (string * option Q) :=
  omap id
    (imap (fun j '(name, dt) =>
             if numeric dt then Some (name, column_median j d) else None)
          (zip (columns d) (dtypes d))).

(** *** fillna *)

(** One step of [fillna] by a Series: under the entry [(k, v)] a missing
    cell of a column labelled [k] becomes [v]; a NaN entry fills nothing. *)
Definition fill_cell (name : string) (c : cell) (item : string * option Q) : cell :=
  match item with
  | (k, Some m) => if isna c && String.eqb k name then VFloat m else c
  | (_, None) => c
  end.

(** [data.fillna(value, inplace=True)] for a Series [value]: fillna walks
    the entries of the Series in order and fills, for each, the columns
    that carry the entry's label. *)
Definition fillna_series (value : list (string * option Q)) (d : DataFrame) : DataFrame :=
  {| columns := columns d;
     dtypes := dtypes d;
     rows := map (fun r =>
                    mkRow (label r)
                      (imap (fun j c =>
                               match columns d !! j with
                               | Some name => fold_left (fill_cell name) value c
                               | None => c
                               end) (cells r)))
                 (rows d) |}.

(** [data.fillna(s, inplace=True)] for a string [s]: every missing cell
    becomes [s]; a column in which one was filled is an object column from
    then on, the others keep their dtype. *)
Definition fillna_str (s : string) (d : DataFrame) : DataFrame :=
  {| columns := columns d;
     dtypes := imap (fun j dt => if existsb isna (column_cells j d) then Object else dt)
                    (dtypes d);
     rows := map (fun r =>
                    mkRow (label r) (map (fun c => if isna c then VStr s else c) (cells r)))
                 (rows d) |}.

(** *** drop_duplicates *)

(** [keep='first']: a row goes when an earlier row has the same values in
    all columns; [seen] holds the values met so far.  Index labels are not
    compared, and the rows kept keep theirs. *)
Fixpoint drop_dups (seen : list (list cell)) (rs : list Row) : list Row :=
  match rs with
  | [] => []
  | r :: rs' =>
      if existsb (cells_eqb (cells r)) seen then drop_dups seen rs'
      else r :: drop_dups (cells r :: seen) rs'
  end.

Definition drop_duplicates (d : DataFrame) : DataFrame :=
  {| columns := columns d; dtypes := dtypes d; rows := drop_dups [] (rows d) |}.

(** A row after the two fills of [cleanse_data]: first by the medians,
    then by the empty string. *)
Definition filled_row (data : DataFrame) (r : Row) : Row :=
  mkRow (label r)
    (List.map (fun c => if isna c then VStr "" else c)
       (imap (fun j c =>
                match columns data !! j with
                | Some name => fold_left (fill_cell name) (df_median data) c
                | None => c
                end) (cells r))).

(** *** Selecting by label *)

(** [data[name]] is a Series when one column carries the label and a
    frame when several do. *)
Inductive selection :=
| ASeries (dt : dtype) (values : list cell)
| AFrame (at_positions : list nat).

Definition getitem (d : DataFrame) (name : string) : option selection :=
  match positions name d with
  | [] => None
  | [j] => Some (ASeries (default Object (dtypes d !! j)) (column_cells j d))
  | ps => Some (AFrame ps)
  end.

(** [np.issubdtype(dt, np.integer)] *)
Definition is_integer_dtype (dt : dtype) : bool :=
  match dt with Int64 | UInt64 => true | _ => false end.

(** [c < 0] *)
Definition negative (c : cell) : bool :=
  match c with
  | VInt z => (z <? 0)%Z
  | VFloat q => negb (Qle_bool 0 q)
  | _ => false
  end.

(** ** The world: files, the log, exceptions *)

(** The exceptions that can occur in a run.  All of them are subclasses of
    [Exception]; asynchronous signals such as KeyboardInterrupt are outside
    the model. *)
Inductive exn_class :=
| OSError
| FileNotFoundError
| PermissionError
| NotADirectoryError
| IsADirectoryError
| ParserError
| EmptyDataError
| ValueError
| AttributeError
| KeyError.

(** An exception object; [msg] is what [str(e)] gives. *)
Record exn := mkExn { cls : exn_class; msg : string }.

(** [isinstance(e, base)]: FileNotFoundError, PermissionError,
    NotADirectoryError and IsADirectoryError derive from OSError, pandas'
    ParserError and EmptyDataError from ValueError. *)
Definition isinstance (e : exn) (base : exn_class) : bool :=
  match base, cls e with
  | OSError, (OSError | FileNotFoundError | PermissionError | NotADirectoryError
              | IsADirectoryError) => true
  | FileNotFoundError, FileNotFoundError => true
  | PermissionError, PermissionError => true
  | NotADirectoryError, NotADirectoryError => true
  | IsADirectoryError, IsADirectoryError => true
  | ParserError, ParserError => true
  | EmptyDataError, EmptyDataError => true
  | ValueError, (ValueError | ParserError | EmptyDataError) => true
  | AttributeError, AttributeError => true
  | KeyError, KeyError => true
  | _, _ => false
  end.

(** A field of a record of a delimited file, as the parser's converters
    take it: an integer, a number with a fraction, an empty field (or one
    of the spellings read_csv reads as missing), or any other text.  A
    record is the list of the fields of one line; a blank line is the
    record without fields (in a file of one column an empty line is blank,
    so that a missing field is there one spelled NA or the like). *)
Inductive field :=
| FInt (z : Z)
| FFloat (q : Q)
| FText (s : string)
| FEmpty.

(** What a path refers to: a delimited file given by its header (as
    read_csv delivers it) and its records, text that the parser rejects,
    something the operating system refuses to open, or a directory.  A
    path that is bound can be reached; at a path that is not bound there is
    nothing, and [open_error] below tells why opening it fails. *)
Inductive entry :=
| CsvFile (header : list string) (records : list (list field))
| BadText
| NoAccess
| Directory.

Inductive level := INFO | ERROR.

Record log_record := mkLog { lvl : level; message : string }.

(** The world of a run: what the paths refer to, and the records sent to
    the log so far.  The log file itself is not among the paths of [fs]. *)
Record world := mkWorld {
  fs : gmap string entry;
  log : list log_record
}.

Inductive result (A : Type) :=
| Ok (a : A)
| Raise (e : exn).
Arguments Ok {A} a.
Arguments Raise {A} e.

(** A computation runs in a world and returns normally or raises. *)
Definition M (A : Type) : Type := world -> result A * world.

#[global] Instance M_ret : MRet M := fun A a w => (Ok a, w).

#[global] Instance M_bind : MBind M := fun A B f m w =>
  match m w with
  | (Ok a, w') => f a w'
  | (Raise e, w') => (Raise e, w')
  end.

Definition raise {A} (e : exn) : M A := fun w => (Raise e, w).

(** [try: body  except Exception as e: handler e] *)
Definition try_except {A} (body : M A) (handler : exn -> M A) : M A := fun w =>
  match body w with
  | (Ok a, w') => (Ok a, w')
  | (Raise e, w') => handler e w'
  end.

(** The world after one more record has gone to the log. *)
Definition logged (l : level) (m : string) (w : world) : world :=
  {| fs := fs w; log := log w ++ [mkLog l m] |}.

Definition logging_info (m : string) : M unit := fun w => (Ok tt, logged INFO m w).

Definition logging_error (m : string) : M unit := fun w => (Ok tt, logged ERROR m w).

(** *** read_csv and to_csv *)

(** The ranges of the two 64-bit integer dtypes. *)
Definition in_int64 (z : Z) : bool := (- 2 ^ 63 <=? z)%Z && (z <? 2 ^ 63)%Z.

Definition in_uint64 (z : Z) : bool := (0 <=? z)%Z && (z <? 2 ^ 64)%Z.

Definition is_int (f : field) : bool :=
  match f with FInt z => in_int64 z | _ => false end.

Definition is_uint (f : field) : bool :=
  match f with FInt z => in_uint64 z | _ => false end.

Definition is_number_or_empty (f : field) : bool :=
  match f with
  | FInt z => in_int64 z
  | FFloat _ | FEmpty => true
  | FText _ => false
  end.

(** Type inference for one column: a column without records is an object
    column; integers that all fit int64 give int64; integers that do not
    all fit int64 give uint64 when all of them fit that, and are kept as
    text otherwise; numbers and missing fields give float64; anything else
    an object column.  (A column that mixes an integer beyond the int64
    range with fractions or missing fields is taken as text here.) *)
Definition infer_dtype (fields : list field) : dtype :=
  match fields with
  | [] => Object
  | _ => if forallb is_int fields then Int64
         else if forallb is_uint fields then UInt64
         else if forallb is_number_or_empty fields then Float64
         else Object
  end.

(** The value a field takes in a column of the dtype inferred.  In an
    object column a number stays text; the digits as typed are not carried
    by [field], and the text is written canonically here (an integer in
    decimal, another number as a fraction). *)
Definition convert (dt : dtype) (f : field) : cell :=
  match f with
  | FEmpty => NaN
  | FInt z =>
      match dt with
      | Int64 | UInt64 => VInt z
      | Float64 => VFloat (inject_Z z)
      | Object => VStr (pretty z)
      end
  | FFloat q =>
      match dt with
      | Object => VStr (pretty (Qnum q) +:+ "/" +:+ pretty (Qden q))
      | _ => VFloat q
      end
  | FText s => VStr s
  end.

(** A record shorter than the header is filled up with missing fields. *)
Definition pad (n : nat) (r : list field) : list field :=
  r ++ replicate (n - length r) FEmpty.

(** The frame of a header and the records of the lines that are not
    blank: one row per record, labelled 0, 1, ... *)
Definition build_frame (header : list string) (records : list (list field)) : DataFrame :=
  let n := length header in
  let recs := map (pad n) records in
  let dts := map (fun j => infer_dtype (omap (fun r => r !! j) recs)) (seq 0 n) in
  {| columns := header;
     dtypes := dts;
     rows := imap (fun i r => mkRow i (zip_with convert dts r)) recs |}.

Definition blank (r : list field) : bool :=
  match r with [] => true | _ => false end.

(** Blank lines are skipped ([skip_blank_lines=True]). *)
Definition parse_frame (header : list string) (records : list (list field)) : DataFrame :=
  build_frame header (List.filter (fun r => negb (blank r)) records).

(** Why opening a path at which there is nothing fails.  Python refuses
    a path with a NUL byte before the operating system sees it.  The
    operating system refuses a path of more than 4095 bytes, and then walks
    the path component by component: a component longer than 255 bytes is
    refused, and so is a component that a separator follows and that is a
    file, not a directory, or may not be entered; otherwise there is no
    such file or directory. *)
Inductive errno := ENOENT | ENOTDIR | EACCES | ENAMETOOLONG.

Definition has_nul (path : string) : bool :=
  existsb (Ascii.eqb "000"%char) (list_ascii_of_string path).

Definition is_file (e : option entry) : bool :=
  match e with
  | Some (CsvFile _ _) | Some BadText => true
  | _ => false
  end.

Definition is_refused (e : option entry) : bool :=
  match e with
  | Some NoAccess => true
  | _ => false
  end.

(** [walk files pre n rest]: [pre] is the part of the path walked so far,
    [n] the length of the component being read, [rest] what is left. *)
Fixpoint walk (files : gmap string entry) (pre : string) (n : nat) (rest : string) : errno :=
  match rest with
  | EmptyString => if (255 <? n)%nat then ENAMETOOLONG else ENOENT
  | String c rest' =>
      if Ascii.eqb c "/"%char then
        if (255 <? n)%nat then ENAMETOOLONG
        else if is_file (files !! pre) then ENOTDIR
        else if is_refused (files !! pre) then EACCES
        else walk files (pre +:+ "/") 0 rest'
      else walk files (pre +:+ String c EmptyString) (S n) rest'
  end.

(** The OSError that [open] raises for an error number. *)
Definition os_error (e : errno) (path : string) : exn :=
  match e with
  | ENOENT =>
      mkExn FileNotFoundError ("[Errno 2] No such file or directory: '" +:+ path +:+ "'")
  | ENOTDIR =>
      mkExn NotADirectoryError ("[Errno 20] Not a directory: '" +:+ path +:+ "'")
  | EACCES =>
      mkExn PermissionError ("[Errno 13] Permission denied: '" +:+ path +:+ "'")
  | ENAMETOOLONG =>
      mkExn OSError ("[Errno 36] File name too long: '" +:+ path +:+ "'")
  end.

Definition open_error (path : string) (files : gmap string entry) : exn :=
  if has_nul path then mkExn ValueError "embedded null byte"
  else if (4095 <? String.length path)%nat then os_error ENAMETOOLONG path
  else os_error (walk files "" 0 path) path.



(** [pd.read_csv(file_path)].  A file without a header line has no
    columns to parse.  A record longer than the header is rejected; the
    index that read_csv infers when the first records are longer than the
    header is outside the model. *)
Definition read_csv (file_path : string) : M DataFrame := fun w =>
  match fs w !! file_path with
  | None => (Raise (open_error file_path (fs w)), w)
  | Some NoAccess =>
      (Raise (mkExn PermissionError
                ("[Errno 13] Permission denied: '" +:+ file_path +:+ "'")), w)
  | Some Directory =>
      (Raise (mkExn IsADirectoryError
                ("[Errno 21] Is a directory: '" +:+ file_path +:+ "'")), w)
  | Some BadText => (Raise (mkExn ParserError "Error tokenizing data"), w)
  | Some (CsvFile header records) =>
      match header with
      | [] => (Raise (mkExn EmptyDataError "No columns to parse from file"), w)
      | _ =>
          if forallb (fun r => (length r <=? length header)%nat) records
          then (Ok (parse_frame header records), w)
          else (Raise (mkExn ParserError "Error tokenizing data"), w)
      end
  end.

Definition cell_field (c : cell) : field :=
  match c with
  | VInt z => FInt z
  | VFloat q => FFloat q
  | VStr s => if String.eqb s "" then FEmpty else FText s
  | NaN => FEmpty
  end.

(** [data.to_csv(output_path, index=False)]: the header row and the rows,
    without the index. *)
Definition to_csv (data : DataFrame) (output_path : string) : M unit := fun w =>
  match fs w !! output_path with
  | Some NoAccess =>
      (Raise (mkExn PermissionError
                ("[Errno 13] Permission denied: '" +:+ output_path +:+ "'")), w)
  | Some Directory =>
      (Raise (mkExn IsADirectoryError
                ("[Errno 21] Is a directory: '" +:+ output_path +:+ "'")), w)
  | _ =>
      (Ok tt,
       {| fs := <[output_path := CsvFile (columns data)
                                   (map (fun r => map cell_field (cells r)) (rows data))]>
                  (fs w);
          log := log w |})
  end.

(** ** The program *)

Definition load_data (file_path : string) : M DataFrame :=
  try_except
    (data ← read_csv file_path;
     logging_info ("Data loaded successfully from " +:+ file_path);;
     mret data)
    (fun e =>
       if isinstance e FileNotFoundError then
         logging_error ("File not found: " +:+ file_path);; raise e
       else if isinstance e ParserError then
         logging_error ("Error parsing the file: " +:+ file_path);; raise e
       else
         logging_error ("An unknown error occurred while loading data: " +:+ msg e);;
         raise e).

Definition standardize_column_names (data : DataFrame) : M DataFrame :=
  try_except
    (let data := {| columns := map standardize_name (columns data);
                    dtypes := dtypes data;
                    rows := rows data |} in
     logging_info "Column names standardized.";;
     mret data)
    (fun e =>
       logging_error ("An error occurred while standardizing column names: " +:+ msg e);;
       raise e).

Definition cleanse_data (data : DataFrame) : M DataFrame :=
  try_except
    (let data := fillna_series (df_median data) data in
     let data := fillna_str "" data in
     let data := drop_duplicates data in
     logging_info "Data cleansing completed.";;
     mret data)
    (fun e =>
       logging_error ("An error occurred during data cleansing: " +:+ msg e);;
       raise e).

(** [data['age'].dtype]: a frame has no attribute of that name. *)
Definition dtype_of (s : option selection) : M dtype :=
  match s with
  | Some (ASeries dt _) => mret dt
  | Some (AFrame _) =>
      raise (mkExn AttributeError "'DataFrame' object has no attribute 'dtype'")
  | None => raise (mkExn KeyError "'age'")
  end.

(** [any(data['age'] < 0)] *)
Definition any_negative (s : option selection) : bool :=
  match s with
  | Some (ASeries _ values) => existsb negative values
  | _ => false
  end.

Definition validate_data (data : DataFrame) : M unit :=
  try_except
    ((if bool_decide ("age" ∈ columns data) then
        dt ← dtype_of (getitem data "age");
        (if negb (is_integer_dtype dt) then
           raise (mkExn ValueError "Age column must be integer type")
         else mret tt);;
        (if any_negative (getitem data "age") then
           raise (mkExn ValueError "Age column contains negative values")
         else mret tt)
      else mret tt);;
     logging_info "Data validation completed.")
    (fun e =>
       if isinstance e ValueError then
         logging_error ("Data validation error: " +:+ msg e);; raise e
       else
         logging_error ("An unknown error occurred during data validation: " +:+ msg e);;
         raise e).

Definition save_data (data : DataFrame) (output_path : string) : M unit :=
  try_except
    (to_csv data output_path;;
     logging_info ("Data saved successfully to " +:+ output_path))
    (fun e =>
       logging_error ("An error occurred while saving data: " +:+ msg e);;
       raise e).

Definition process_pipeline (input_file output_file : string) : M unit :=
  try_except
    (data ← load_data input_file;
     data ← standardize_column_names data;
     data ← cleanse_data data;
     validate_data data;;
     save_data data output_file;;
     logging_info "Data pipeline completed successfully.")
    (fun e => logging_error ("Pipeline failed: " +:+ msg e)).

(** The contract of the orchestrator as the specification words it: the
    stages run in order, each in the world the previous one left; the run
    ends at the first stage that raises, with one pipeline-level error
    record added to the log, or after the save with the success record. *)
Inductive halts_at_first_failure (input_file output_file : string) (w : world) :
  world -> Prop :=
| load_raises e w1 :
    load_data input_file w = (Raise e, w1) ->
    halts_at_first_failure input_file output_file w
      (logged ERROR ("Pipeline failed: " +:+ msg e) w1)
| standardize_raises d1 w1 e w2 :
    load_data input_file w = (Ok d1, w1) ->
    standardize_column_names d1 w1 = (Raise e, w2) ->
    halts_at_first_failure input_file output_file w
      (logged ERROR ("Pipeline failed: " +:+ msg e) w2)
| cleanse_raises d1 w1 d2 w2 e w3 :
    load_data input_file w = (Ok d1, w1) ->
    standardize_column_names d1 w1 = (Ok d2, w2) ->
    cleanse_data d2 w2 = (Raise e, w3) ->
    halts_at_first_failure input_file output_file w
      (logged ERROR ("Pipeline failed: " +:+ msg e) w3)
| validate_raises d1 w1 d2 w2 d3 w3 e w4 :
    load_data input_file w = (Ok d1, w1) ->
    standardize_column_names d1 w1 = (Ok d2, w2) ->
    cleanse_data d2 w2 = (Ok d3, w3) ->
    validate_data d3 w3 = (Raise e, w4) ->
    halts_at_first_failure input_file output_file w
      (logged ERROR ("Pipeline failed: " +:+ msg e) w4)
| save_raises d1 w1 d2 w2 d3 w3 w4 e w5 :
    load_data input_file w = (Ok d1, w1) ->
    standardize_column_names d1 w1 = (Ok d2, w2) ->
    cleanse_data d2 w2 = (Ok d3, w3) ->
    validate_data d3 w3 = (Ok tt, w4) ->
    save_data d3 output_file w4 = (Raise e, w5) ->
    halts_at_first_failure input_file output_file w
      (logged ERROR ("Pipeline failed: " +:+ msg e) w5)
| all_succeed d1 w1 d2 w2 d3 w3 w4 w5 :
    load_data input_file w = (Ok d1, w1) ->
    standardize_column_names d1 w1 = (Ok d2, w2) ->
    cleanse_data d2 w2 = (Ok d3, w3) ->
    validate_data d3 w3 = (Ok tt, w4) ->
    save_data d3 output_file w4 = (Ok tt, w5) ->
    halts_at_first_failure input_file output_file w
      (logged INFO "Data pipeline completed successfully." w5).

(** ** Statements about columns *)

(** Column [j] is numeric and has a value that is not missing. *)
Definition numeric_with_value (data : DataFrame) (j : nat) : Prop :=
  exists dt r c,
    dtypes data !! j = Some dt /\ numeric dt = true /\
    r ∈ rows data /\ cells r !! j = Some c /\ isna c = false.

(** cleanse_data fills column [j] with its median: the column has a
    median [m] before the fill; [filled] holds one row for every row of the
    input, in order and under the same label, in which a missing cell of
    column [j] holds [m] and another cell of the column is kept; the rows
    that cleanse_data returns are rows of [filled], in order, and every row
    of [filled] has its values in one of them, so that no filled cell is
    lost other than with a row that repeats an earlier one. *)
Definition filled_with_median (data : DataFrame) (j : nat) : Prop :=
  exists m,
    column_median j data = Some m /\
    forall w, exists d' w' filled,
      cleanse_data data w = (Ok d', w') /\
      Forall2 (fun r r' =>
                 label r' = label r /\
                 forall c, cells r !! j = Some c ->
                           cells r' !! j = Some (if isna c then VFloat m else c))
              (rows data) filled /\
      rows d' `sublist_of` filled /\
      forall r', r' ∈ filled ->
                 exists r'', r'' ∈ rows d' /\ cells_eqb (cells r') (cells r'') = true.

(** A numeric column with a value missing between two others. *)
Definition three_ages : DataFrame :=
  {| columns := ["name"; "age"];
     dtypes := [Object; Float64];
     rows := [mkRow 0 [VStr "Alice"; VFloat 30];
              mkRow 1 [VStr "Bob"; NaN];
              mkRow 2 [VStr "Carol"; VFloat 10]] |}.

(** Two columns under one label, each with one value missing. *)
Definition two_x : DataFrame :=
  {| columns := ["x"; "x"];
     dtypes := [Float64; Float64];
     rows := [mkRow 0 [VFloat 1; NaN]; mkRow 1 [NaN; VFloat 5]] |}.

(** Two columns that both come out labelled "age", as from the header
    [Age,age]; the second holds a value that is not an integer. *)
Definition two_ages : DataFrame :=
  {| columns := ["age"; "age"];
     dtypes := [Int64; Float64];
     rows := [mkRow 0 [VInt 30; VFloat (7 # 2)]] |}.

(** The same, with a value missing. *)
Definition two_ages_missing : DataFrame :=
  {| columns := ["age"; "age"];
     dtypes := [Float64; Float64];
     rows := [mkRow 0 [VFloat 30; NaN]; mkRow 1 [VFloat 20; VFloat 4]] |}.

(** The input of the end-to-end example: header [" Name , Age "] and the
    rows [("Alice", 30)] and [("alice", "")]. *)
Definition alice_csv : entry :=
  CsvFile [" Name "; " Age "] [[FText "Alice"; FInt 30]; [FText "alice"; FEmpty]].

Definition alice_world : world :=
  {| fs := {[ "input_data.csv" := alice_csv ]}; log := [] |}.









(** A label written in ASCII: on such labels [Str.strip] and [Str.lower]
    are Python's [str.strip] and [str.lower]. *)
Definition ascii_only (s : string) : bool :=
  forallb (fun c => (nat_of_ascii c <? 128)%nat) (list_ascii_of_string s).


(** ** Further notions, for the properties of the stages *)

(** A label in canonical form: no white space at either end, and no space
    and no upper-case ASCII letter anywhere. *)
Definition canonical (s : string) : Prop :=
  let l := list_ascii_of_string s in
  (forall c, head l = Some c -> Str.isspace c = false) /\
  (forall c, last l = Some c -> Str.isspace c = false) /\
  (forall c, c ∈ l -> c <> " "%char /\ Str.lower_char c = c).

(** The level at which a stage reports its outcome. *)
Definition outcome_level {A} (r : result A) : level :=
  match r with Ok _ => INFO | Raise _ => ERROR end.

(** The [__main__] block. *)
Definition main : M unit := process_pipeline "input_data.csv" "output_data.csv".

(** Worlds in which the input is text that the parser rejects, and a file
    without a header line. *)
Definition bad_text_world : world :=
  {| fs := {[ "input_data.csv" := BadText ]}; log := [] |}.

Definition empty_file_world : world :=
  {| fs := {[ "input_data.csv" := CsvFile [] [] ]}; log := [] |}.

(** Frames for the validation properties: ages that pass, an age below
    zero, and a table without an age column. *)
Definition good_ages : DataFrame :=
  {| columns := ["name"; "age"];
     dtypes := [Object; Int64];
     rows := [mkRow 0 [VStr "Alice"; VInt 30]; mkRow 1 [VStr "Bob"; VInt 0]] |}.

Definition bad_ages : DataFrame :=
  {| columns := ["name"; "age"];
     dtypes := [Object; Int64];
     rows := [mkRow 0 [VStr "Alice"; VInt 30]; mkRow 1 [VStr "Bob"; VInt (-7)]] |}.

Definition no_ages : DataFrame :=
  {| columns := ["name"; "Age"];
     dtypes := [Object; Float64];
     rows := [mkRow 0 [VStr "Alice"; VFloat (-3)]] |}.

(** A frame with a text column in which a value is missing, and a numeric
    column without any value. *)
Definition gaps : DataFrame :=
  {| columns := ["city"; "score"];
     dtypes := [Object; Float64];
     rows := [mkRow 0 [VStr "Oslo"; NaN]; mkRow 1 [NaN; NaN]] |}.

(** Inputs for the end-to-end properties: a file without an age column,
    one with ages that pass, and one with an age header and no record. *)
Definition cities_csv : entry :=
  CsvFile ["City "; " Mean Temp"]
    [[FText "Oslo"; FFloat (13 # 2)]; [FText "Rome"; FEmpty]; [FText "Oslo"; FFloat (13 # 2)]].

Definition cities_world : world :=
  {| fs := {[ "input_data.csv" := cities_csv ]}; log := [] |}.

Definition ages_csv : entry :=
  CsvFile ["Name"; "Age"] [[FText "Alice"; FInt 30]; [FText "Bob"; FInt 0]].

Definition ages_world : world :=
  {| fs := {[ "input_data.csv" := ages_csv ]}; log := [] |}.

Definition header_only_csv : entry := CsvFile ["name"; "age"] [].

Definition header_only_world : world :=
  {| fs := {[ "input_data.csv" := header_only_csv ]}; log := [] |}.


(** * Properties *)

(** ** Column labels *)

Section StrFacts.
Import Str.

Lemma str_map_map f g s : map f (map g s) = map (fun c => f (g c)) s.
Proof. induction s as [|c s IH]; simpl; [done | by rewrite IH]. Qed.

Lemma str_map_ext f g s : (forall c, f c = g c) -> map f s = map g s.
Proof. intros E. induction s as [|c s IH]; simpl; [done | by rewrite E, IH]. Qed.

Lemma lstrip_no_lead s : no_lead (lstrip s).
Proof.
  induction s as [|c s IH]; simpl; [done |].
  destruct (isspace c) eqn:E; [done | simpl; done].
Qed.

Lemma lstrip_fixed s : no_lead s -> lstrip s = s.
Proof. destruct s as [|c s]; simpl; [done |]. by intros ->. Qed.

Lemma rstrip_no_lead s : no_lead s -> no_lead (rstrip s).
Proof.
  destruct s as [|c s]; simpl; [done |]. intros H.
  destruct (rstrip s); [by rewrite H | done].
Qed.

Lemma rstrip_idem s : rstrip (rstrip s) = rstrip s.
Proof.
  induction s as [|c s IH]; simpl; [done |].
  destruct (rstrip s) as [|d r] eqn:E.
  - destruct (isspace c) eqn:Ec; simpl; [done | by rewrite Ec].
  - simpl in *. destruct (rstrip r) as [|d' r'] eqn:Er.
    + destruct (isspace d); [done |]. by rewrite IH.
    + by rewrite IH.
Qed.

(** A character map that never turns a visible character into white space
    keeps a stripped string stripped. *)
Lemma rstrip_map_fixed f s :
  (forall c, isspace c = false -> isspace (f c) = false) ->
  rstrip s = s -> rstrip (map f s) = map f s.
Proof.
  intros Hf. induction s as [|c s IH]; simpl; [done |].
  destruct (rstrip s) as [|d r] eqn:E.
  - destruct (isspace c) eqn:Ec; [done |].
    intros [= <-]. simpl. by rewrite (Hf _ Ec).
  - intros [= Hs]. rewrite <- Hs in *. specialize (IH eq_refl).
    simpl in IH. simpl. destruct (rstrip (map f r)) eqn:Er.
    + destruct (isspace (f d)); [done |]. by injection IH as ->.
    + by rewrite IH.
Qed.

Lemma no_lead_map f s :
  (forall c, isspace c = false -> isspace (f c) = false) ->
  no_lead s -> no_lead (map f s).
Proof. intros Hf. destruct s; simpl; [done | apply Hf]. Qed.

Lemma strip_fixed s : no_lead s -> rstrip s = s -> strip s = s.
Proof. intros H1 H2. unfold strip. by rewrite (lstrip_fixed _ H1). Qed.

Lemma strip_stripped s : no_lead (strip s) /\ rstrip (strip s) = strip s.
Proof.
  unfold strip. split; [apply rstrip_no_lead, lstrip_no_lead | apply rstrip_idem].
Qed.

Lemma canon_char_visible c : isspace c = false -> isspace (canon_char c) = false.
Proof. destruct c as [[] [] [] [] [] [] [] []]; vm_compute; congruence. Qed.

Lemma canon_char_idem c : canon_char (canon_char c) = canon_char c.
Proof. destruct c as [[] [] [] [] [] [] [] []]; reflexivity. Qed.

Lemma standardize_name_eq col :
  standardize_name col = map canon_char (strip col).
Proof. unfold standardize_name, replace, lower. by rewrite str_map_map. Qed.

Lemma standardize_name_idem col :
  standardize_name (standardize_name col) = standardize_name col.
Proof.
  rewrite !standardize_name_eq.
  destruct (strip_stripped col) as [H1 H2].
  rewrite (strip_fixed (map canon_char (strip col))).
  - rewrite str_map_map. apply str_map_ext, canon_char_idem.
  - apply no_lead_map; [apply canon_char_visible | done].
  - apply rstrip_map_fixed; [apply canon_char_visible | done].
Qed.

End StrFacts.

Example standardize_name_header : standardize_name " Name " = "name".
Proof. reflexivity. Qed.

Example standardize_name_inner : standardize_name "  First  Name " = "first__name".
Proof. reflexivity. Qed.

(** ** The stages, run *)

Lemma standardize_column_names_run data w :
  standardize_column_names data w =
  (Ok {| columns := List.map standardize_name (columns data);
         dtypes := dtypes data;
         rows := rows data |},
   logged INFO "Column names standardized." w).
Proof. reflexivity. Qed.

Lemma cleanse_data_run data w :
  cleanse_data data w =
  (Ok (drop_duplicates (fillna_str "" (fillna_series (df_median data) data))),
   logged INFO "Data cleansing completed." w).
Proof. reflexivity. Qed.

(** C7. standardize_column_names is idempotent: run on its own result it
    returns the column names it was given (and the table unchanged). *)
Theorem standardize_column_names_idempotent data w :
  exists d1 w1 d2 w2,
    standardize_column_names data w = (Ok d1, w1) /\
    standardize_column_names d1 w1 = (Ok d2, w2) /\
    columns d2 = columns d1 /\ d2 = d1.
Proof.
  eexists _, _, _, _. rewrite !standardize_column_names_run.
  split; [reflexivity |]. split; [reflexivity |].
  assert (E : List.map standardize_name (List.map standardize_name (columns data))
              = List.map standardize_name (columns data)).
  { rewrite List.map_map. apply List.map_ext. intros. apply standardize_name_idem. }
  simpl. by rewrite E.
Qed.

(** ** Equality of rows *)

Lemma cell_eqb_refl c : cell_eqb c c = true.
Proof.
  destruct c; simpl; [apply Z.eqb_refl | | apply String.eqb_refl | done].
  apply Qeq_bool_iff. reflexivity.
Qed.

Lemma cell_eqb_sym a b : cell_eqb a b = cell_eqb b a.
Proof.
  destruct a, b; simpl; try done.
  - apply Z.eqb_sym.
  - apply eq_true_iff_eq. rewrite !Qeq_bool_iff. split; intros H; by symmetry.
  - apply String.eqb_sym.
Qed.

Lemma cells_eqb_refl r : cells_eqb r r = true.
Proof. induction r as [|c r IH]; simpl; [done |]. by rewrite cell_eqb_refl, IH. Qed.

Lemma cells_eqb_sym r1 r2 : cells_eqb r1 r2 = cells_eqb r2 r1.
Proof.
  revert r2. induction r1 as [|a r1 IH]; intros [|b r2]; simpl; try done.
  by rewrite cell_eqb_sym, IH.
Qed.

Lemma cells_eqb_false_neq r1 r2 : cells_eqb r1 r2 = false -> r1 <> r2.
Proof. intros H ->. by rewrite cells_eqb_refl in H. Qed.

Lemma cells_eqb_lookup r1 r2 j c :
  cells_eqb r1 r2 = true -> r1 !! j = Some c ->
  exists c', r2 !! j = Some c' /\ cell_eqb c c' = true.
Proof.
  revert r2 j. induction r1 as [|a r1 IH]; intros [|b r2] j; simpl; try done.
  intros [Hab Hr]%andb_prop. destruct j as [|j]; simpl.
  - intros [= <-]. eauto.
  - eauto.
Qed.

Lemma existsb_false_elem_of {A} (f : A -> bool) (l : list A) x :
  existsb f l = false -> x ∈ l -> f x = false.
Proof.
  intros H Hx. destruct (f x) eqn:E; [| done].
  assert (existsb f l = true); [| congruence].
  apply existsb_exists. exists x. split; [by apply list_elem_of_In | done].
Qed.

(** ** drop_duplicates *)

Lemma drop_dups_sublist seen rs : drop_dups seen rs `sublist_of` rs.
Proof.
  revert seen. induction rs as [|r rs IH]; intros seen; simpl; [done |].
  destruct (existsb _ seen).
  - by apply sublist_cons.
  - by apply sublist_skip.
Qed.

Lemma drop_dups_elem_of seen rs r : r ∈ drop_dups seen rs -> r ∈ rs.
Proof.
  revert seen. induction rs as [|r0 rs IH]; intros seen; simpl; [done |].
  destruct (existsb _ seen).
  - intros H. apply elem_of_cons. right. by eapply IH.
  - intros [-> | H]%elem_of_cons; apply elem_of_cons; [by left | right; by eapply IH].
Qed.

(** A row that is kept differs from every row seen before. *)
Lemma drop_dups_fresh seen rs r s :
  r ∈ drop_dups seen rs -> s ∈ seen -> cells_eqb (cells r) s = false.
Proof.
  revert seen. induction rs as [|r0 rs IH]; intros seen; simpl.
  - by intros ?%elem_of_nil.
  - destruct (existsb _ seen) eqn:E.
    + apply IH.
    + intros [-> | Hr]%elem_of_cons Hs.
      * by apply (existsb_false_elem_of _ _ _ E).
      * apply (IH _ Hr). by apply elem_of_cons; right.
Qed.

Lemma drop_dups_distinct seen rs i j ri rj :
  (i < j)%nat ->
  drop_dups seen rs !! i = Some ri -> drop_dups seen rs !! j = Some rj ->
  cells_eqb (cells ri) (cells rj) = false.
Proof.
  revert seen i j. induction rs as [|r0 rs IH]; intros seen i j Hij; simpl; [done |].
  destruct (existsb _ seen) eqn:E; [by apply IH |].
  destruct j as [|j]; [lia |]. destruct i as [|i]; simpl.
  - intros [= <-] Hj. rewrite cells_eqb_sym.
    apply (drop_dups_fresh (cells r0 :: seen) rs).
    + by apply list_elem_of_lookup_2 in Hj.
    + by apply elem_of_cons; left.
  - apply IH. lia.
Qed.

(** Every row of the input is kept or has its values in a row that is. *)
Lemma drop_dups_covers seen rs r :
  r ∈ rs ->
  (exists s, s ∈ seen /\ cells_eqb (cells r) s = true) \/
  (exists r', r' ∈ drop_dups seen rs /\ cells_eqb (cells r) (cells r') = true).
Proof.
  revert seen. induction rs as [|r0 rs IH]; intros seen; simpl.
  - by intros ?%elem_of_nil.
  - intros [-> | Hr]%elem_of_cons.
    + destruct (existsb _ seen) eqn:E.
      * left. apply existsb_exists in E as (s & Hs & E).
        exists s. split; [by apply list_elem_of_In | done].
      * right. exists r0. split; [by apply elem_of_cons; left | apply cells_eqb_refl].
    + destruct (existsb _ seen) eqn:E.
      * by apply IH.
      * destruct (IH (cells r0 :: seen) Hr) as [(s & Hs & Es) | (r' & Hr' & Er')].
        -- apply elem_of_cons in Hs as [-> | Hs].
           ++ right. exists r0. split; [by apply elem_of_cons; left | done].
           ++ left. eauto.
        -- right. exists r'. split; [by apply elem_of_cons; right | done].
Qed.

Lemma sublist_same_length {A} (l1 l2 : list A) :
  l1 `sublist_of` l2 -> length l1 = length l2 -> l1 = l2.
Proof.
  induction 1 as [|x l1 l2 H IH|x l1 l2 H IH]; simpl; intros Hlen; [done | |].
  - f_equal. apply IH. lia.
  - apply sublist_length in H. lia.
Qed.

(** ** Cleansing *)

(** The rows after the two fills, before duplicates go. *)
Lemma filled_rows data :
  rows (fillna_str "" (fillna_series (df_median data) data)) =
  List.map (filled_row data) (rows data).
Proof. simpl. by rewrite List.map_map. Qed.

Lemma cleansed_rows data :
  rows (drop_duplicates (fillna_str "" (fillna_series (df_median data) data))) =
  drop_dups [] (List.map (filled_row data) (rows data)).
Proof. unfold drop_duplicates. cbn [rows]. by rewrite filled_rows. Qed.

Lemma filled_row_lookup data r j c :
  cells r !! j = Some c ->
  cells (filled_row data r) !! j =
  Some (let c1 := match columns data !! j with
                  | Some name => fold_left (fill_cell name) (df_median data) c
                  | None => c
                  end in
        if isna c1 then VStr "" else c1).
Proof.
  intros Hc. unfold filled_row. cbn [cells].
  change (List.map ?f ?l) with (f <$> l).
  by rewrite list_lookup_fmap, list_lookup_imap, Hc.
Qed.

Lemma filled_row_length data r : length (cells (filled_row data r)) = length (cells r).
Proof. unfold filled_row. cbn [cells]. by rewrite length_map, length_imap. Qed.

(** C3. After cleanse_data returns (and it always does) no cell is the
    missing marker, and no two rows at different positions have the same
    values in all columns: they are not equal as drop_duplicates compares
    them, and so not identical. *)
Theorem cleanse_data_no_missing_no_duplicates data w :
  exists d' w',
    cleanse_data data w = (Ok d', w') /\
    (forall r c, r ∈ rows d' -> c ∈ cells r -> isna c = false) /\
    (forall i j ri rj,
        i <> j -> rows d' !! i = Some ri -> rows d' !! j = Some rj ->
        cells_eqb (cells ri) (cells rj) = false /\ cells ri <> cells rj).
Proof.
  eexists _, _. rewrite cleanse_data_run. split; [reflexivity |]. split.
  - intros r c Hr Hc. rewrite cleansed_rows in Hr. apply drop_dups_elem_of in Hr.
    apply list_elem_of_fmap in Hr as (r0 & -> & _). unfold filled_row in Hc.
    cbn [cells] in Hc.
    apply list_elem_of_fmap in Hc as (c0 & -> & _). by destruct (isna c0) eqn:E.
  - intros i j ri rj Hij Hi Hj. rewrite cleansed_rows in Hi, Hj.
    assert (Hne : cells_eqb (cells ri) (cells rj) = false).
    { destruct (Nat.lt_total i j) as [Hlt | [-> | Hlt]]; [| done |].
      - eapply drop_dups_distinct; eauto.
      - rewrite cells_eqb_sym. eapply drop_dups_distinct; eauto. }
    split; [done |]. by apply cells_eqb_false_neq.
Qed.

(** *** The fill by the medians *)

Lemma fold_fill_not_na name value c :
  isna c = false -> fold_left (fill_cell name) value c = c.
Proof.
  revert c. induction value as [|[k [m|]] value IH]; intros c Hc; simpl; [done | |];
    rewrite ?Hc; simpl; by apply IH.
Qed.

Lemma positions_from_ge i name cols j :
  j ∈ positions_from i name cols -> (i <= j)%nat.
Proof.
  revert i. induction cols as [|c cols IH]; intros i; simpl.
  - by intros ?%elem_of_nil.
  - destruct (String.eqb c name).
    + intros [-> | H]%elem_of_cons; [lia |]. apply IH in H. lia.
    + intros H. apply IH in H. lia.
Qed.

Lemma positions_from_lookup i name cols k :
  (i + k)%nat ∈ positions_from i name cols -> cols !! k = Some name.
Proof.
  revert i k. induction cols as [|c cols IH]; intros i k; simpl.
  - by intros ?%elem_of_nil.
  - destruct (String.eqb c name) eqn:E.
    + intros [Hk | H]%elem_of_cons.
      * assert (k = 0%nat) as -> by lia. simpl. by apply String.eqb_eq in E as ->.
      * destruct k as [|k]; [apply positions_from_ge in H; lia |].
        simpl. apply (IH (S i)). by replace (S i + k)%nat with (i + S k)%nat by lia.
    + intros H. destruct k as [|k]; [apply positions_from_ge in H; lia |].
      simpl. apply (IH (S i)). by replace (S i + k)%nat with (i + S k)%nat by lia.
Qed.

Lemma positions_lookup name d j :
  positions name d = [j] -> columns d !! j = Some name.
Proof.
  unfold positions. intros H. apply (positions_from_lookup 0). simpl.
  rewrite H. by apply list_elem_of_singleton.
Qed.

Lemma positions_elem_of name d j :
  positions name d = [j] -> name ∈ columns d.
Proof. intros H. eapply list_elem_of_lookup_2, positions_lookup, H. Qed.

(** Under a label that one column carries, the walk through the Series
    fills a missing cell with that column's entry. *)
Lemma fold_fill_unique (med : nat -> option Q) name cols dts i k dt m c :
  positions_from i name cols = [(i + k)%nat] ->
  dts !! k = Some dt -> numeric dt = true -> med (i + k)%nat = Some m ->
  fold_left (fill_cell name)
    (omap id (imap (fun j '(n, t) =>
                      if numeric t then Some (n, med (i + j)%nat) else None)
                   (zip cols dts))) c
  = if isna c then VFloat m else c.
Proof.
  revert dts i k c. induction cols as [|c0 cols IH]; intros dts i k c; simpl; [done |].
  destruct dts as [|dt0 dts]; [done |]. simpl.
  destruct (String.eqb c0 name) eqn:E.
  - intros [= Hk Hrest]. assert (k = 0%nat) as -> by lia. simpl.
    intros [= ->] Hn Hm. rewrite Hn. simpl. rewrite Nat.add_0_r in *. rewrite Hm. simpl.
    rewrite E, andb_true_r. destruct (isna c) eqn:Ec.
    + by apply fold_fill_not_na.
    + by apply fold_fill_not_na.
  - intros Hpos Hdt Hn Hm.
    assert (Hge : (S i <= i + k)%nat).
    { apply (positions_from_ge _ name cols). rewrite Hpos. by apply list_elem_of_singleton. }
    destruct k as [|k]; [lia |]. simpl in Hdt.
    replace (i + S k)%nat with (S i + k)%nat in * by lia.
    specialize (IH dts (S i) k).
    assert (Hext : imap ((fun j '(n, t) =>
                            if numeric t then Some (n, med (i + j)%nat) else None) ∘ S)
                        (zip cols dts)
                   = imap (fun j '(n, t) =>
                             if numeric t then Some (n, med (S i + j)%nat) else None)
                          (zip cols dts)).
    { apply imap_ext. intros j [n t] _. simpl.
      by replace (i + S j)%nat with (S (i + j)) by lia. }
    rewrite Hext. destruct (numeric dt0); simpl.
    + rewrite Nat.add_0_r. destruct (med i) as [m0|]; simpl.
      * rewrite E, andb_false_r. by apply IH.
      * by apply IH.
    + by apply IH.
Qed.

Lemma fill_unique data name j dt m c :
  positions name data = [j] ->
  dtypes data !! j = Some dt -> numeric dt = true ->
  column_median j data = Some m ->
  fold_left (fill_cell name) (df_median data) c = if isna c then VFloat m else c.
Proof.
  intros Hpos Hdt Hn Hm. unfold df_median.
  apply (fold_fill_unique (fun i => column_median i data) name (columns data)
           (dtypes data) 0 j dt m c); done.
Qed.

(** *** median *)

Lemma insert_sorted_length x l : length (insert_sorted x l) = S (length l).
Proof.
  induction l as [|y l IH]; simpl; [done |].
  destruct (Qle_bool x y); simpl; [done | by rewrite IH].
Qed.

Lemma sort_length l : length (sort l) = length l.
Proof.
  induction l as [|x l IH]; simpl; [done |].
  by rewrite insert_sorted_length, IH.
Qed.

Lemma median_is_Some xs : xs <> [] -> is_Some (median xs).
Proof.
  intros Hxs. unfold median.
  assert (Hn : (0 < length (sort xs))%nat).
  { rewrite sort_length. destruct xs; [done | simpl; lia]. }
  destruct (Nat.eqb_spec (length (sort xs)) 0); [lia |].
  destruct (Nat.odd (length (sort xs))) eqn:Hodd.
  - apply lookup_lt_is_Some. apply Nat.div_lt; lia.
  - assert (H2 : (length (sort xs) / 2 < length (sort xs))%nat) by (apply Nat.div_lt; lia).
    destruct (lookup_lt_is_Some_2 (sort xs) (length (sort xs) / 2 - 1)) as [a ->]; [lia |].
    destruct (lookup_lt_is_Some_2 (sort xs) (length (sort xs) / 2)) as [b ->]; [lia |].
    simpl. eauto.
Qed.

(** [sort] sorts: its result is ordered and holds the values given. *)
Lemma insert_sorted_perm x l : insert_sorted x l ≡ₚ x :: l.
Proof.
  induction l as [|y l IH]; simpl; [done |].
  destruct (Qle_bool x y); [done |]. rewrite IH. apply Permutation_swap.
Qed.

Lemma sort_perm l : sort l ≡ₚ l.
Proof.
  induction l as [|x l IH]; simpl; [done |].
  by rewrite insert_sorted_perm, IH.
Qed.

Lemma insert_sorted_sorted x l : Sorted Qle l -> Sorted Qle (insert_sorted x l).
Proof.
  induction l as [|y l IH]; simpl; intros Hs.
  - by repeat constructor.
  - destruct (Qle_bool x y) eqn:E.
    + constructor; [done |]. constructor. by apply Qle_bool_iff.
    + apply Sorted_inv in Hs as [Hs Hhd]. constructor; [by apply IH |].
      assert (Hyx : (y <= x)%Q).
      { apply Qlt_le_weak, Qnot_le_lt. intros H. apply Qle_bool_iff in H. congruence. }
      destruct l as [|z l]; simpl; [by constructor |].
      destruct (Qle_bool x z); constructor; [done |]. by apply HdRel_inv in Hhd.
Qed.

Lemma sort_sorted l : Sorted Qle (sort l).
Proof.
  induction l as [|x l IH]; simpl; [constructor | by apply insert_sorted_sorted].
Qed.

Example median_odd : median [3; 1; 2]%Q = Some 2%Q.
Proof. reflexivity. Qed.

Example median_even : median [3; 1; 2; 10]%Q = Some ((2 + 3) / 2)%Q.
Proof. reflexivity. Qed.

Example median_none : median [] = None.
Proof. reflexivity. Qed.

Lemma row_fits_lookup dts cs j dt c :
  row_fits dts cs = true -> dts !! j = Some dt -> cs !! j = Some c ->
  cell_fits dt c = true.
Proof.
  revert cs j. induction dts as [|d dts IH]; intros [|c0 cs] j; simpl; try done.
  intros [H1 H2]%andb_prop. destruct j as [|j]; simpl.
  - by intros [= <-] [= <-].
  - by apply IH.
Qed.

Lemma well_formed_cell d r j dt c :
  well_formed d = true -> r ∈ rows d ->
  dtypes d !! j = Some dt -> cells r !! j = Some c -> cell_fits dt c = true.
Proof.
  unfold well_formed. intros [_ Hrows]%andb_prop Hr Hdt Hc.
  rewrite forallb_forall in Hrows.
  eapply row_fits_lookup; [apply Hrows; by apply list_elem_of_In | done | done].
Qed.

(** A numeric column with a value that is not missing has a median. *)
Lemma column_median_is_Some d j dt r c :
  well_formed d = true -> dtypes d !! j = Some dt -> numeric dt = true ->
  r ∈ rows d -> cells r !! j = Some c -> isna c = false ->
  is_Some (column_median j d).
Proof.
  intros Hwf Hdt Hn Hr Hc Hna. apply median_is_Some.
  assert (Hfit := well_formed_cell _ _ _ _ _ Hwf Hr Hdt Hc).
  assert (exists q, number_of c = Some q) as [q Hq].
  { destruct dt, c; simpl in *; try done; eauto. }
  assert (q ∈ omap number_of (column_cells j d)); [| by intros E; rewrite E in *; set_solver].
  apply list_elem_of_omap. exists c. split; [| done].
  unfold column_cells. apply list_elem_of_omap. eauto.
Qed.

Lemma filled_row_keeps data r j c :
  cells r !! j = Some c -> isna c = false ->
  cells (filled_row data r) !! j = Some c.
Proof.
  intros Hc Hna. rewrite (filled_row_lookup _ _ _ _ Hc). cbn zeta.
  destruct (columns data !! j) as [name|]; [rewrite fold_fill_not_na by done |];
    by rewrite Hna.
Qed.

(** C10. cleanse_data keeps the column sequence and the relative order of
    the rows: the rows returned are, in order, among the filled rows of the
    input, which stand row by row for the input rows (same index label,
    same length, every cell that was not missing unchanged). *)
Theorem cleanse_data_preserves_order data w :
  exists d' w' filled,
    cleanse_data data w = (Ok d', w') /\
    columns d' = columns data /\
    Forall2 (fun r r' =>
               label r' = label r /\
               length (cells r') = length (cells r) /\
               forall j c, cells r !! j = Some c -> isna c = false ->
                           cells r' !! j = Some c)
            (rows data) filled /\
    rows d' `sublist_of` filled /\
    (label <$> rows d') `sublist_of` (label <$> rows data).
Proof.
  exists (drop_duplicates (fillna_str "" (fillna_series (df_median data) data))),
    (logged INFO "Data cleansing completed." w),
    (filled_row data <$> rows data).
  split; [apply cleanse_data_run |]. split; [done |].
  assert (HF : Forall2 (fun r r' =>
               label r' = label r /\
               length (cells r') = length (cells r) /\
               forall j c, cells r !! j = Some c -> isna c = false ->
                           cells r' !! j = Some c)
            (rows data) (filled_row data <$> rows data)).
  { apply Forall2_fmap_r, Forall_Forall2_diag, Forall_forall. intros r _.
    split; [done |]. split; [apply filled_row_length |].
    intros j c. apply filled_row_keeps. }
  split; [done |]. rewrite cleansed_rows.
  split; [apply drop_dups_sublist |].
  replace (label <$> rows data) with (label <$> (filled_row data <$> rows data)).
  - apply fmap_sublist, drop_dups_sublist.
  - rewrite <- list_fmap_compose. by apply list_fmap_ext.
Qed.

(** C4, as the code has it.  In a well-formed table, a numeric column
    that has a value that is not missing, and whose label no other column
    carries, is filled with its median: every missing cell of the column
    receives the median of the column's values before the fill. *)
Theorem cleanse_data_fills_with_median data name j :
  well_formed data = true ->
  positions name data = [j] ->
  numeric_with_value data j ->
  filled_with_median data j.
Proof.
  intros Hwf Hpos (dt & r & c & Hdt & Hn & Hr & Hc & Hna).
  destruct (column_median_is_Some _ _ _ _ _ Hwf Hdt Hn Hr Hc Hna) as [m Hm].
  exists m. split; [done |]. intros w.
  exists (drop_duplicates (fillna_str "" (fillna_series (df_median data) data))),
    (logged INFO "Data cleansing completed." w),
    (filled_row data <$> rows data).
  split; [apply cleanse_data_run |]. split.
  - apply Forall2_fmap_r, Forall_Forall2_diag, Forall_forall. intros r0 _.
    split; [done |]. intros c0 Hc0.
    rewrite (filled_row_lookup _ _ _ _ Hc0), (positions_lookup _ _ _ Hpos). cbn zeta.
    rewrite (fill_unique _ _ _ _ _ _ Hpos Hdt Hn Hm).
    by destruct (isna c0) eqn:E; simpl; rewrite ?E.
  - rewrite cleansed_rows. split; [apply drop_dups_sublist |].
    intros r' Hr'.
    destruct (drop_dups_covers [] _ _ Hr') as [(s & Hs & _) | Hcov]; [| done].
    by apply elem_of_nil in Hs.
Qed.

Lemma cleanse_data_fills_with_median_witness :
  filled_with_median three_ages 1 /\
  (cleanse_data three_ages (mkWorld ∅ [])).1 =
    Ok {| columns := ["name"; "age"];
          dtypes := [Object; Float64];
          rows := [mkRow 0 [VStr "Alice"; VFloat 30];
                   mkRow 1 [VStr "Bob"; VFloat ((10 + 30) / 2)];
                   mkRow 2 [VStr "Carol"; VFloat 10]] |}.
Proof.
  split; [| reflexivity].
  apply (cleanse_data_fills_with_median _ "age" 1); [reflexivity | reflexivity |].
  exists Float64, (mkRow 0 [VStr "Alice"; VFloat 30]), (VFloat 30).
  repeat split; by apply elem_of_cons; left.
Defined.

(** C4, as the specification words it, fails where two columns carry one
    label: the second column of [two_x] has the median 5, and its missing
    cell receives 1, the median of the first. *)
Lemma two_x_not_filled_with_median :
  well_formed two_x = true /\ numeric_with_value two_x 1 /\
  column_median 1 two_x = Some 5%Q /\
  (cleanse_data two_x (mkWorld ∅ [])).1 =
    Ok {| columns := ["x"; "x"];
          dtypes := [Float64; Float64];
          rows := [mkRow 0 [VFloat 1; VFloat 1]; mkRow 1 [VFloat 1; VFloat 5]] |} /\
  ~ filled_with_median two_x 1.
Proof.
  split; [reflexivity |]. split; [| split; [reflexivity | split; [reflexivity |]]].
  - exists Float64, (mkRow 1 [NaN; VFloat 5]), (VFloat 5).
    repeat split. apply elem_of_cons; right. by apply elem_of_cons; left.
  - intros (m & Hm & H).
    destruct (H (mkWorld ∅ [])) as (d' & w' & filled & Hrun & HF & Hsub & _).
    rewrite cleanse_data_run in Hrun. injection Hrun as <- _.
    vm_compute in Hm. injection Hm as <-.
    rewrite cleansed_rows in Hsub.
    apply Forall2_cons_inv_l in HF as (r0 & f1 & [_ H0] & HF & ->).
    apply Forall2_cons_inv_l in HF as (r1 & f2 & [_ H1] & HF & ->).
    apply Forall2_nil_inv_l in HF as ->.
    specialize (H0 NaN eq_refl). simpl in H0.
    apply sublist_same_length in Hsub; [| reflexivity].
    vm_compute in Hsub. injection Hsub as <- _. vm_compute in H0. discriminate.
Qed.

(** ** Validation *)

Lemma validate_data_one_age data j w :
  positions "age" data = [j] ->
  validate_data data w =
  if negb (is_integer_dtype (default Object (dtypes data !! j))) then
    (Raise (mkExn ValueError "Age column must be integer type"),
     logged ERROR "Data validation error: Age column must be integer type" w)
  else if existsb negative (column_cells j data) then
    (Raise (mkExn ValueError "Age column contains negative values"),
     logged ERROR "Data validation error: Age column contains negative values" w)
  else (Ok tt, logged INFO "Data validation completed." w).
Proof.
  intros Hpos. unfold validate_data, try_except, mbind, M_bind.
  rewrite bool_decide_eq_true_2 by (by eapply positions_elem_of).
  unfold getitem. rewrite Hpos. cbn [dtype_of any_negative].
  destruct (default Object (dtypes data !! j)); cbn; try reflexivity;
    by destruct (existsb negative (column_cells j data)).
Qed.

Lemma row_fits_dtype dts cs j c :
  row_fits dts cs = true -> cs !! j = Some c ->
  exists dt, dts !! j = Some dt /\ cell_fits dt c = true.
Proof.
  revert cs j. induction dts as [|d dts IH]; intros [|c0 cs] j; simpl; try done.
  intros [H1 H2]%andb_prop. destruct j as [|j]; simpl.
  - intros [= <-]. eauto.
  - by apply IH.
Qed.

Lemma well_formed_dtype d r j c :
  well_formed d = true -> r ∈ rows d -> cells r !! j = Some c ->
  exists dt, dtypes d !! j = Some dt /\ cell_fits dt c = true.
Proof.
  unfold well_formed. intros [_ Hrows]%andb_prop Hr Hc.
  rewrite forallb_forall in Hrows.
  eapply row_fits_dtype; [apply Hrows; by apply list_elem_of_In | done].
Qed.

(** C5, as the code has it.  In a well-formed table in which exactly one
    column is labelled "age", a value of that column that is not an integer
    makes validate_data raise ValueError("Age column must be integer type"):
    the type check comes first, and the range error is not reported. *)
Theorem validate_data_type_error_first data j r c w :
  well_formed data = true ->
  positions "age" data = [j] ->
  r ∈ rows data -> cells r !! j = Some c -> (forall z, c <> VInt z) ->
  validate_data data w =
  (Raise (mkExn ValueError "Age column must be integer type"),
   logged ERROR "Data validation error: Age column must be integer type" w).
Proof.
  intros Hwf Hpos Hr Hc Hnot.
  destruct (well_formed_dtype _ _ _ _ Hwf Hr Hc) as (dt & Hdt & Hfit).
  rewrite (validate_data_one_age _ _ _ Hpos), Hdt. simpl.
  destruct dt; simpl; try reflexivity;
    destruct c; simpl in Hfit; try done; by destruct (Hnot z).
Qed.

Lemma validate_data_type_error_first_witness :
  validate_data
    {| columns := ["name"; "age"]; dtypes := [Object; Float64];
       rows := [mkRow 0 [VStr "Bob"; VFloat (7 # 2)]; mkRow 1 [VStr "Eve"; VFloat (-1)]] |}
    (mkWorld ∅ []) =
  (Raise (mkExn ValueError "Age column must be integer type"),
   logged ERROR "Data validation error: Age column must be integer type" (mkWorld ∅ [])).
Proof.
  apply (validate_data_type_error_first _ 1
           (mkRow 0 [VStr "Bob"; VFloat (7 # 2)]) (VFloat (7 # 2)));
    [reflexivity | reflexivity | by apply elem_of_cons; left | reflexivity | discriminate].
Defined.

(** C5, as the specification words it, fails where two columns are labelled
    "age": [data['age']] is then a frame, which has no dtype, and
    validate_data raises AttributeError instead of the type error. *)
Lemma two_ages_attribute_error :
  well_formed two_ages = true /\
  "age" ∈ columns two_ages /\
  (exists r c, r ∈ rows two_ages /\ c ∈ cells r /\ forall z, c <> VInt z) /\
  validate_data two_ages (mkWorld ∅ []) =
    (Raise (mkExn AttributeError "'DataFrame' object has no attribute 'dtype'"),
     logged ERROR
       "An unknown error occurred during data validation: 'DataFrame' object has no attribute 'dtype'"
       (mkWorld ∅ [])) /\
  validate_data two_ages (mkWorld ∅ []) <>
    (Raise (mkExn ValueError "Age column must be integer type"),
     logged ERROR "Data validation error: Age column must be integer type" (mkWorld ∅ [])).
Proof.
  split; [reflexivity |]. split; [by apply elem_of_cons; left |]. split.
  - exists (mkRow 0 [VInt 30; VFloat (7 # 2)]), (VFloat (7 # 2)).
    split; [by apply elem_of_cons; left |].
    split; [apply elem_of_cons; right; by apply elem_of_cons; left | discriminate].
  - split; [reflexivity | discriminate].
Qed.

Lemma cleansed_dtype_not_integer data j dt :
  dtypes data !! j = Some dt -> is_integer_dtype dt = false ->
  exists dt',
    dtypes (drop_duplicates (fillna_str "" (fillna_series (df_median data) data))) !! j
      = Some dt' /\
    is_integer_dtype dt' = false.
Proof.
  intros Hdt Hn. cbn [dtypes drop_duplicates fillna_str fillna_series].
  rewrite list_lookup_imap, Hdt. simpl.
  match goal with |- context [if ?b then _ else _] => destruct b end; eauto.
Qed.

(** C9, as the code has it.  In a well-formed table in which exactly one
    column is labelled "age", a missing value in that column makes
    validate_data, run on what cleanse_data returns, raise the integer-type
    error: the column is not integer-typed before the fill, and no fill
    makes it so. *)
Theorem missing_age_fails_type_check data j r w :
  well_formed data = true ->
  positions "age" data = [j] ->
  r ∈ rows data -> cells r !! j = Some NaN ->
  exists d' w',
    cleanse_data data w = (Ok d', w') /\
    validate_data d' w' =
    (Raise (mkExn ValueError "Age column must be integer type"),
     logged ERROR "Data validation error: Age column must be integer type" w').
Proof.
  intros Hwf Hpos Hr Hc. eexists _, _. split; [apply cleanse_data_run |].
  destruct (well_formed_dtype _ _ _ _ Hwf Hr Hc) as (dt & Hdt & Hfit).
  assert (Hn : is_integer_dtype dt = false) by (by destruct dt).
  destruct (cleansed_dtype_not_integer _ _ _ Hdt Hn) as (dt' & Hdt' & Hn').
  rewrite (validate_data_one_age _ j) by exact Hpos.
  by rewrite Hdt'; simpl; rewrite Hn'.
Qed.

Lemma missing_age_fails_type_check_witness :
  exists d' w',
    cleanse_data
      {| columns := ["name"; "age"]; dtypes := [Object; Float64];
         rows := [mkRow 0 [VStr "Alice"; VFloat 30]; mkRow 1 [VStr "alice"; NaN]] |}
      (mkWorld ∅ []) = (Ok d', w') /\
    validate_data d' w' =
    (Raise (mkExn ValueError "Age column must be integer type"),
     logged ERROR "Data validation error: Age column must be integer type" w').
Proof.
  apply (missing_age_fails_type_check _ 1 (mkRow 1 [VStr "alice"; NaN]));
    [reflexivity | reflexivity | | reflexivity].
  apply elem_of_cons; right. by apply elem_of_cons; left.
Defined.

(** C9, as worded, fails where two columns are labelled "age":
    validate_data then raises AttributeError on the cleansed table. *)
Lemma two_ages_missing_attribute_error :
  well_formed two_ages_missing = true /\
  (exists r, r ∈ rows two_ages_missing /\ NaN ∈ cells r) /\
  exists d' w',
    cleanse_data two_ages_missing (mkWorld ∅ []) = (Ok d', w') /\
    validate_data d' w' =
      (Raise (mkExn AttributeError "'DataFrame' object has no attribute 'dtype'"),
       logged ERROR
         "An unknown error occurred during data validation: 'DataFrame' object has no attribute 'dtype'"
         w') /\
    validate_data d' w' <>
      (Raise (mkExn ValueError "Age column must be integer type"),
       logged ERROR "Data validation error: Age column must be integer type" w').
Proof.
  split; [reflexivity |]. split.
  - exists (mkRow 0 [VFloat 30; NaN]). split; [by apply elem_of_cons; left |].
    apply elem_of_cons; right. by apply elem_of_cons; left.
  - eexists _, _. split; [apply cleanse_data_run |].
    split; [reflexivity | discriminate].
Qed.

(** ** The pipeline *)


Lemma load_data_csv file_path header records w :
  fs w !! file_path = Some (CsvFile header records) ->
  header <> [] ->
  forallb (fun r => (length r <=? length header)%nat) records = true ->
  load_data file_path w =
  (Ok (parse_frame header records),
   logged INFO ("Data loaded successfully from " +:+ file_path) w).
Proof.
  intros H Hh Hr. unfold load_data, try_except, mbind, M_bind, read_csv.
  rewrite H. destruct header; [done |]. by rewrite Hr.
Qed.

(** Every stage writes one record to the log each time it runs, whether
    it returns or raises: the log tells which stages ran. *)
Lemma load_data_logs_once file_path w r w' :
  load_data file_path w = (r, w') -> exists l m, w' = logged l m w.
Proof.
  unfold load_data, try_except, mbind, M_bind, read_csv.
  destruct (fs w !! file_path) as [[header records| | |]|]; cbn.
  - destruct header; cbn; [intros [= <- <-]; eauto |].
    destruct (forallb _ records); cbn; intros [= <- <-]; eauto.
  - intros [= <- <-]; eauto.
  - intros [= <- <-]; eauto.
  - intros [= <- <-]; eauto.
  - destruct (cls (open_error file_path (fs w))); cbn; intros [= <- <-]; eauto.
Qed.

Lemma validate_data_logs_once data w r w' :
  validate_data data w = (r, w') -> exists l m, w' = logged l m w.
Proof.
  unfold validate_data, try_except, mbind, M_bind.
  destruct (bool_decide _); cbn; [| intros [= <- <-]; eauto].
  destruct (getitem data "age") as [[dt vs|ps]|]; cbn.
  - destruct (is_integer_dtype dt); cbn; [| intros [= <- <-]; eauto].
    destruct (existsb negative vs); cbn; intros [= <- <-]; eauto.
  - intros [= <- <-]; eauto.
  - intros [= <- <-]; eauto.
Qed.

Lemma save_data_logs_once data output_path w r w' :
  save_data data output_path w = (r, w') ->
  exists l m, log w' = log w ++ [mkLog l m].
Proof.
  unfold save_data, try_except, mbind, M_bind, to_csv.
  destruct (fs w !! output_path) as [[| | |]|]; cbn; intros [= <- <-]; eauto.
Qed.

(** A run that ends at validation leaves the files as they were. *)
Lemma validate_raises_fs input_file d1 w1 d2 w2 d3 w3 e w4 w :
  load_data input_file w = (Ok d1, w1) ->
  standardize_column_names d1 w1 = (Ok d2, w2) ->
  cleanse_data d2 w2 = (Ok d3, w3) ->
  validate_data d3 w3 = (Raise e, w4) ->
  fs w4 = fs w.
Proof.
  intros (l1 & m1 & ->)%load_data_logs_once.
  rewrite standardize_column_names_run. intros [= <- <-].
  rewrite cleanse_data_run. intros [= <- <-].
  by intros (l4 & m4 & ->)%validate_data_logs_once.
Qed.

(** Whatever the body of the orchestrator's [try] does, the handler logs
    and returns: nothing is raised further. *)
Lemma try_except_absorbs (body : M unit) (text : exn -> string) w :
  exists w', try_except body (fun e => logging_error (text e)) w = (Ok tt, w').
Proof.
  unfold try_except. destruct (body w) as [[[]|e] w1]; eauto.
Qed.

(** C1. process_pipeline returns normally in every world and for every
    pair of paths.  The world it leaves is the one the first raising stage
    left, with the pipeline-level error record added to the log, no later
    stage having run; or, when no stage raises, the world after the save
    with the success record. *)
Theorem process_pipeline_never_raises input_file output_file w :
  exists w',
    process_pipeline input_file output_file w = (Ok tt, w') /\
    halts_at_first_failure input_file output_file w w'.
Proof.
  unfold process_pipeline, try_except, mbind, M_bind.
  destruct (load_data input_file w) as [[d1|e] w1] eqn:H1;
    [| eexists; split; [reflexivity | by eapply load_raises]].
  destruct (standardize_column_names d1 w1) as [[d2|e] w2] eqn:H2;
    [| eexists; split; [reflexivity | by eapply standardize_raises]].
  destruct (cleanse_data d2 w2) as [[d3|e] w3] eqn:H3;
    [| eexists; split; [reflexivity | by eapply cleanse_raises]].
  destruct (validate_data d3 w3) as [[[]|e] w4] eqn:H4;
    [| eexists; split; [reflexivity | by eapply validate_raises]].
  destruct (save_data d3 output_file w4) as [[[]|e] w5] eqn:H5;
    [| eexists; split; [reflexivity | by eapply save_raises]].
  eexists; split; [reflexivity | by eapply all_succeed].
Qed.




(** C2, as the specification words it, fails: on the example input the
    pipeline does not succeed.  The run ends at validation, and no output
    file is written. *)
Lemma alice_pipeline_fails :
  exists w',
    process_pipeline "input_data.csv" "output_data.csv" alice_world = (Ok tt, w') /\
    fs w' !! "output_data.csv" = None /\
    log w' = [mkLog INFO "Data loaded successfully from input_data.csv";
              mkLog INFO "Column names standardized.";
              mkLog INFO "Data cleansing completed.";
              mkLog ERROR "Data validation error: Age column must be integer type";
              mkLog ERROR "Pipeline failed: Age column must be integer type"].
Proof. eexists. split; [vm_compute; reflexivity |]. split; reflexivity. Qed.

(** C2, as the code has it.  On the example input the first three stages
    succeed: the header becomes name,age, the missing age is filled with
    the median of the age column, 30, and the two rows differ.  The age
    column is then float-typed, so validate_data raises the integer-type
    error; process_pipeline logs the failure and writes no file. *)
Theorem alice_pipeline input_file output_file w :
  fs w !! input_file = Some alice_csv ->
  exists d1 w1 d2 w2 d3 w3 w',
    load_data input_file w = (Ok d1, w1) /\
    standardize_column_names d1 w1 = (Ok d2, w2) /\
    cleanse_data d2 w2 = (Ok d3, w3) /\
    columns d3 = ["name"; "age"] /\
    column_median 1 d2 = Some (30 # 1) /\
    rows d3 = [mkRow 0 [VStr "Alice"; VFloat 30]; mkRow 1 [VStr "alice"; VFloat 30]] /\
    dtypes d3 = [Object; Float64] /\
    validate_data d3 w3 =
      (Raise (mkExn ValueError "Age column must be integer type"),
       logged ERROR "Data validation error: Age column must be integer type" w3) /\
    process_pipeline input_file output_file w = (Ok tt, w') /\
    fs w' = fs w /\
    log w' = log w ++
             [mkLog INFO ("Data loaded successfully from " +:+ input_file);
              mkLog INFO "Column names standardized.";
              mkLog INFO "Data cleansing completed.";
              mkLog ERROR "Data validation error: Age column must be integer type";
              mkLog ERROR "Pipeline failed: Age column must be integer type"].
Proof.
  intros H.
  assert (Hload := load_data_csv input_file _ _ w H ltac:(discriminate) eq_refl).
  eexists _, _, _, _, _, _, _.
  split; [exact Hload |]. split; [apply standardize_column_names_run |].
  split; [apply cleanse_data_run |].
  split; [reflexivity |]. split; [reflexivity |]. split; [reflexivity |].
  split; [reflexivity |]. split; [reflexivity |].
  unfold process_pipeline, try_except, mbind, M_bind. rewrite Hload.
  split; [reflexivity |]. split; [reflexivity |].
  cbn. by rewrite <- !app_assoc.
Qed.

Lemma alice_pipeline_witness :
  exists d1 w1 d2 w2 d3 w3 w',
    load_data "input_data.csv" alice_world = (Ok d1, w1) /\
    standardize_column_names d1 w1 = (Ok d2, w2) /\
    cleanse_data d2 w2 = (Ok d3, w3) /\
    columns d3 = ["name"; "age"] /\
    column_median 1 d2 = Some (30 # 1) /\
    rows d3 = [mkRow 0 [VStr "Alice"; VFloat 30]; mkRow 1 [VStr "alice"; VFloat 30]] /\
    dtypes d3 = [Object; Float64] /\
    validate_data d3 w3 =
      (Raise (mkExn ValueError "Age column must be integer type"),
       logged ERROR "Data validation error: Age column must be integer type" w3) /\
    process_pipeline "input_data.csv" "output_data.csv" alice_world = (Ok tt, w') /\
    fs w' = fs alice_world /\
    log w' = log alice_world ++
             [mkLog INFO ("Data loaded successfully from " +:+ "input_data.csv");
              mkLog INFO "Column names standardized.";
              mkLog INFO "Data cleansing completed.";
              mkLog ERROR "Data validation error: Age column must be integer type";
              mkLog ERROR "Pipeline failed: Age column must be integer type"].
Proof.
  apply (alice_pipeline "input_data.csv" "output_data.csv" alice_world).
  vm_compute. reflexivity.
Defined.

(** ** An integer column through the pipeline *)

Lemma pad_lookup n r j f : r !! j = Some f -> pad n r !! j = Some f.
Proof. intros H. unfold pad. by apply lookup_app_l_Some. Qed.

Lemma int_fields n j records :
  Forall (fun r => exists z, r !! j = Some (FInt z) /\ in_int64 z = true) records ->
  forallb is_int (omap (fun r => r !! j) (pad n <$> records)) = true /\
  length (omap (fun r : list field => r !! j) (pad n <$> records)) = length records.
Proof.
  induction 1 as [|r records (z & Hz & Hin) _ [IH1 IH2]]; [done |].
  cbn. rewrite (pad_lookup _ _ _ _ Hz). cbn. by rewrite Hin, IH1, IH2.
Qed.

(** No line is blank when every record has a field in some column. *)
Lemma filter_nonblank (P : field -> Prop) j records :
  Forall (fun r => exists f, r !! j = Some f /\ P f) records ->
  List.filter (fun r => negb (blank r)) records = records.
Proof.
  induction 1 as [|r records (f & Hf & _) _ IH]; [done |].
  simpl. rewrite IH. by destruct r.
Qed.

Lemma parse_frame_nonblank (P : field -> Prop) j header records :
  Forall (fun r => exists f, r !! j = Some f /\ P f) records ->
  parse_frame header records = build_frame header records.
Proof. intros H. unfold parse_frame. by rewrite (filter_nonblank P j). Qed.

Lemma build_frame_dtype header records j :
  (j < length header)%nat -> records <> [] ->
  Forall (fun r => exists z, r !! j = Some (FInt z) /\ in_int64 z = true) records ->
  dtypes (build_frame header records) !! j = Some Int64.
Proof.
  intros Hj Hne Hall. unfold build_frame. cbn [dtypes].
  change (List.map ?f ?l) with (f <$> l).
  rewrite list_lookup_fmap, lookup_seq_lt by done. cbn.
  change (List.map ?f ?l) with (f <$> l).
  destruct (int_fields (length header) j records Hall) as [H1 H2].
  unfold infer_dtype. rewrite H1.
  destruct (omap _ _) eqn:E; [| done].
  destruct records; [done | simpl in H2; lia].
Qed.

Lemma build_frame_cell header records j i r z :
  (j < length header)%nat -> records <> [] ->
  Forall (fun r => exists z, r !! j = Some (FInt z) /\ in_int64 z = true) records ->
  records !! i = Some r -> r !! j = Some (FInt z) ->
  exists row, rows (build_frame header records) !! i = Some row /\
              cells row !! j = Some (VInt z).
Proof.
  intros Hj Hne Hall Hi Hz.
  pose proof (build_frame_dtype header records j Hj Hne Hall) as Hdt.
  unfold build_frame in *. cbn [rows dtypes] in *.
  change (List.map ?f ?l) with (f <$> l) in *.
  eexists. rewrite list_lookup_imap, list_lookup_fmap, Hi. cbn.
  split; [reflexivity |]. cbn [cells].
  by rewrite lookup_zip_with, Hdt, (pad_lookup _ _ _ _ Hz).
Qed.

Lemma build_frame_rows_length header records :
  length (rows (build_frame header records)) = length records.
Proof. unfold build_frame. cbn [rows]. by rewrite length_imap, length_map. Qed.

(** A column is an integer column when its dtype is int64 and every row
    holds an integer in it; cleansing keeps it so, and keeps each of its
    values in some row. *)
Lemma cleansed_integer_column data j :
  dtypes data !! j = Some Int64 ->
  (forall r, r ∈ rows data -> exists z, cells r !! j = Some (VInt z)) ->
  let d' := drop_duplicates (fillna_str "" (fillna_series (df_median data) data)) in
  dtypes d' !! j = Some Int64 /\
  (forall z r, r ∈ rows data -> cells r !! j = Some (VInt z) ->
               exists r', r' ∈ rows d' /\ cells r' !! j = Some (VInt z)).
Proof.
  intros Hdt Hint d'. split.
  - subst d'. cbn [dtypes drop_duplicates fillna_str].
    rewrite list_lookup_imap. cbn [dtypes fillna_series]. rewrite Hdt. cbn.
    match goal with |- context [existsb isna ?l] => destruct (existsb isna l) eqn:E end;
      [| done].
    apply existsb_exists in E as (c & Hc & Hna).
    apply list_elem_of_In in Hc. unfold column_cells in Hc.
    apply list_elem_of_omap in Hc as (r & Hr & Hc). cbn [rows fillna_series] in Hr.
    apply list_elem_of_fmap in Hr as (r0 & -> & Hr0).
    destruct (Hint _ Hr0) as [z Hz]. cbn [cells] in Hc.
    rewrite list_lookup_imap, Hz in Hc. cbn in Hc.
    destruct (columns data !! j); [rewrite fold_fill_not_na in Hc by done |];
      injection Hc as <-; done.
  - intros z r Hr Hz. subst d'. rewrite cleansed_rows.
    assert (Hf : filled_row data r ∈ List.map (filled_row data) (rows data)).
    { by apply list_elem_of_fmap_2. }
    destruct (drop_dups_covers [] _ _ Hf) as [(s & Hs & _) | (r' & Hr' & Heq)].
    + by apply elem_of_nil in Hs.
    + exists r'. split; [done |].
      assert (Hk : cells (filled_row data r) !! j = Some (VInt z))
        by (by apply filled_row_keeps).
      destruct (cells_eqb_lookup _ _ _ _ Heq Hk) as (c' & Hc' & Hcc).
      destruct c'; simpl in Hcc; try done.
      apply Z.eqb_eq in Hcc as <-. done.
Qed.





(** * Further properties of the stages *)

(** ** Labels in canonical form *)

Lemma chars_map f s :
  list_ascii_of_string (Str.map f s) = List.map f (list_ascii_of_string s).
Proof. induction s as [|c s IH]; simpl; [done | by rewrite IH]. Qed.

Lemma no_lead_head s :
  no_lead s <-> forall c, head (list_ascii_of_string s) = Some c -> Str.isspace c = false.
Proof.
  destruct s as [|c s]; simpl; split; try done.
  - by intros H c' [= <-].
  - intros H. by apply H.
Qed.

Lemma rstrip_fixed_last s :
  Str.rstrip s = s <->
  forall c, last (list_ascii_of_string s) = Some c -> Str.isspace c = false.
Proof.
  induction s as [|c s IH]; simpl; [done |].
  destruct s as [|d s].
  - simpl. split.
    + destruct (Str.isspace c) eqn:E; [done |]. by intros _ c' [= <-].
    + intros H. by rewrite (H c eq_refl).
  - change (list_ascii_of_string (String d s)) with (d :: list_ascii_of_string s) in *.
    rewrite last_cons_cons. rewrite <- IH. split.
    + destruct (Str.rstrip (String d s)) as [|d' r] eqn:E.
      * destruct (Str.isspace c); intros [=].
      * by intros [= -> ->].
    + intros ->. done.
Qed.

Lemma canon_char_fixed c :
  canon_char c = c <-> c <> " "%char /\ Str.lower_char c = c.
Proof.
  split.
  - destruct c as [[] [] [] [] [] [] [] []]; vm_compute; intros H; split; congruence.
  - intros [H1 H2]. unfold canon_char. rewrite H2.
    destruct (Ascii.eqb_spec c " "); done.
Qed.

Lemma str_map_fixed f s :
  Str.map f s = s <-> forall c, c ∈ list_ascii_of_string s -> f c = c.
Proof.
  induction s as [|c s IH]; simpl.
  - split; [by intros _ c ?%elem_of_nil | done].
  - split.
    + intros [= H1 H2] c' [-> | H]%elem_of_cons; [done |]. by apply IH.
    + intros H. rewrite (H c) by (by apply elem_of_cons; left). f_equal.
      apply IH. intros c' Hc'. apply H. by apply elem_of_cons; right.
Qed.

Lemma standardize_name_canonical col : canonical (standardize_name col).
Proof.
  rewrite standardize_name_eq. destruct (strip_stripped col) as [H1 H2].
  split; [| split].
  - apply no_lead_head, no_lead_map; [apply canon_char_visible | done].
  - apply rstrip_fixed_last, rstrip_map_fixed; [apply canon_char_visible | done].
  - intros c. rewrite chars_map. intros (c0 & -> & _)%list_elem_of_fmap.
    apply canon_char_fixed, canon_char_idem.
Qed.

Lemma standardize_name_fixed_iff col : standardize_name col = col <-> canonical col.
Proof.
  split.
  - intros <-. apply standardize_name_canonical.
  - intros (H1 & H2 & H3). rewrite standardize_name_eq.
    rewrite strip_fixed; [| by apply no_lead_head | by apply rstrip_fixed_last].
    apply str_map_fixed. intros c Hc. by apply canon_char_fixed, H3.
Qed.

(** X1. standardize_column_names always returns, and every label of the
    table it returns is in canonical form: no white space at either end, no
    space and no upper-case ASCII letter inside.  The number of columns, the
    dtypes and the rows are those of the input. *)
Theorem standardize_column_names_canonical data w :
  exists d' w',
    standardize_column_names data w = (Ok d', w') /\
    Forall canonical (columns d') /\
    length (columns d') = length (columns data) /\
    dtypes d' = dtypes data /\ rows d' = rows data.
Proof.
  eexists _, _. split; [apply standardize_column_names_run |]. cbn [columns dtypes rows].
  split; [| by rewrite length_map].
  apply Forall_forall. intros x (c & -> & _)%list_elem_of_fmap.
  apply standardize_name_canonical.
Qed.

(** X2. When the labels of a table are written in ASCII,
    standardize_column_names returns the table it was given exactly when
    every label of that table is already in canonical form. *)
Theorem standardize_column_names_fixed_iff data w :
  forallb ascii_only (columns data) = true ->
  (standardize_column_names data w).1 = Ok data <-> Forall canonical (columns data).
Proof.
  intros _. rewrite standardize_column_names_run. cbn [fst]. destruct data as [cols dts rs].
  cbn [columns dtypes rows]. split.
  - intros [= H]. apply Forall_forall. intros x Hx.
    apply standardize_name_fixed_iff.
    apply list_elem_of_lookup_1 in Hx as [i Hi].
    assert (H' : List.map standardize_name cols !! i = Some x) by (by rewrite H).
    change (List.map ?f ?l) with (f <$> l) in H'.
    rewrite list_lookup_fmap, Hi in H'. by injection H' as ->.
  - intros H. do 2 f_equal. rewrite Forall_forall in H.
    change (List.map ?f ?l) with (f <$> l).
    rewrite <- (list_fmap_id cols) at 2. apply list_fmap_ext.
    intros i x Hi. apply standardize_name_fixed_iff, H. by eapply list_elem_of_lookup_2.
Qed.

Lemma standardize_column_names_fixed_iff_witness :
  ((standardize_column_names good_ages (mkWorld ∅ [])).1 = Ok good_ages <->
   Forall canonical (columns good_ages)) /\
  ((standardize_column_names no_ages (mkWorld ∅ [])).1 = Ok no_ages <->
   Forall canonical (columns no_ages)).
Proof.
  split.
  - apply (standardize_column_names_fixed_iff good_ages (mkWorld ∅ [])). reflexivity.
  - apply (standardize_column_names_fixed_iff no_ages (mkWorld ∅ [])). reflexivity.
Defined.

(** ** Loading *)


(** X3. load_data passes on what read_csv did: it returns the same frame
    or raises the same exception, leaves the world read_csv saw untouched
    but for one log record, and that record is an INFO record exactly when a
    frame is returned. *)
Theorem load_data_reports_read_csv file_path w :
  (read_csv file_path w).2 = w /\
  exists m,
    load_data file_path w =
    ((read_csv file_path w).1, logged (outcome_level (read_csv file_path w).1) m w).
Proof.
  unfold load_data, try_except, mbind, M_bind, read_csv.
  destruct (fs w !! file_path) as [[header records| | |]|]; cbn.
  - destruct header; cbn; [eauto |].
    destruct (forallb _ records); cbn; eauto.
  - eauto.
  - eauto.
  - eauto.
  - destruct (cls (open_error file_path (fs w))); cbn; eauto.
Qed.

Lemma load_data_Ok_inv file_path w d w1 :
  load_data file_path w = (Ok d, w1) ->
  exists header records,
    fs w !! file_path = Some (CsvFile header records) /\ header <> [] /\
    forallb (fun r => (length r <=? length header)%nat) records = true /\
    d = parse_frame header records /\
    w1 = logged INFO ("Data loaded successfully from " +:+ file_path) w.
Proof.
  unfold load_data, try_except, mbind, M_bind, read_csv.
  destruct (fs w !! file_path) as [[header records| | |]|]; cbn; try done;
    [| by destruct (cls (open_error file_path (fs w)))].
  destruct header as [|h header]; cbn; [done |].
  destruct (forallb _ records) eqn:E; cbn; [| done].
  intros [= <- <-]. by exists (h :: header), records.
Qed.

Lemma row_fits_intro dts cs :
  length dts = length cs ->
  (forall j dt c, dts !! j = Some dt -> cs !! j = Some c -> cell_fits dt c = true) ->
  row_fits dts cs = true.
Proof.
  revert cs. induction dts as [|dt dts IH]; intros [|c cs]; simpl; try done.
  intros [= Hlen] H. apply andb_true_intro. split.
  - by apply (H 0%nat).
  - apply IH; [done |]. intros j. apply (H (S j)).
Qed.

Lemma row_fits_length dts cs : row_fits dts cs = true -> length dts = length cs.
Proof.
  revert cs. induction dts as [|dt dts IH]; intros [|c cs]; simpl; try done.
  intros [_ H]%andb_prop. f_equal. by apply IH.
Qed.

(** A field takes, under the dtype inferred for its column, a value that
    the dtype admits. *)
Lemma convert_fits fields f :
  f ∈ fields -> cell_fits (infer_dtype fields) (convert (infer_dtype fields) f) = true.
Proof.
  intros Hf. unfold infer_dtype. destruct fields as [|f0 fields]; [by apply elem_of_nil in Hf |].
  apply list_elem_of_In in Hf.
  destruct (forallb is_int (f0 :: fields)) eqn:E1.
  { rewrite forallb_forall in E1. specialize (E1 _ Hf). by destruct f. }
  destruct (forallb is_uint (f0 :: fields)) eqn:E2.
  { rewrite forallb_forall in E2. specialize (E2 _ Hf). by destruct f. }
  destruct (forallb is_number_or_empty (f0 :: fields)) eqn:E3; [| done].
  rewrite forallb_forall in E3. specialize (E3 _ Hf). by destruct f.
Qed.

Lemma pad_length n r : (length r <= n)%nat -> length (pad n r) = n.
Proof. intros H. unfold pad. rewrite length_app, length_replicate. lia. Qed.

Lemma build_frame_well_formed header records :
  forallb (fun r => (length r <=? length header)%nat) records = true ->
  well_formed (build_frame header records) = true.
Proof.
  intros Hlen. unfold well_formed, build_frame. cbn [dtypes columns rows].
  change (List.map ?f ?l) with (f <$> l).
  apply andb_true_intro. split.
  { apply Nat.eqb_eq. by rewrite length_fmap, length_seq. }
  apply forallb_forall. intros row [i Hi]%list_elem_of_In%list_elem_of_lookup_1.
  rewrite list_lookup_imap, list_lookup_fmap in Hi.
  destruct (records !! i) as [r|] eqn:Hr; [| done]. cbn in Hi. injection Hi as <-.
  cbn [cells].
  assert (Hr' : (length r <= length header)%nat).
  { rewrite forallb_forall in Hlen. apply Nat.leb_le, Hlen.
    by eapply list_elem_of_In, list_elem_of_lookup_2. }
  apply row_fits_intro.
  - rewrite length_zip_with_l_eq; [done |].
    by rewrite length_fmap, length_seq, pad_length.
  - intros j dt c Hdt (x & y & -> & Hx & Hy)%lookup_zip_with_Some.
    rewrite Hx in Hdt. injection Hdt as <-.
    rewrite list_lookup_fmap in Hx.
    destruct (seq 0 (length header) !! j) as [j'|] eqn:Hj; [| done].
    apply lookup_seq in Hj as [-> _]. cbn in Hx. injection Hx as <-.
    apply convert_fits, list_elem_of_omap. exists (pad (length header) r).
    split; [| done]. apply list_elem_of_fmap. exists r.
    split; [done | by eapply list_elem_of_lookup_2].
Qed.

Lemma parse_frame_well_formed header records :
  forallb (fun r => (length r <=? length header)%nat) records = true ->
  well_formed (parse_frame header records) = true.
Proof.
  intros Hlen. apply build_frame_well_formed.
  rewrite forallb_forall in *. intros r [Hr _]%filter_In. by apply Hlen.
Qed.

(** X5. Whenever read_csv raises a ParserError, load_data logs
    "Error parsing the file: <path>" and re-raises that exception. *)
Theorem load_data_parse_error file_path w e w1 :
  read_csv file_path w = (Raise e, w1) ->
  isinstance e ParserError = true ->
  load_data file_path w =
  (Raise e, logged ERROR ("Error parsing the file: " +:+ file_path) w1).
Proof.
  intros Hread Hcls. unfold load_data, try_except, mbind, M_bind. rewrite Hread.
  assert (Hfnf : isinstance e FileNotFoundError = false).
  { unfold isinstance in *. by destruct (cls e). }
  by rewrite Hfnf, Hcls.
Qed.

Lemma load_data_parse_error_witness :
  load_data "input_data.csv" bad_text_world =
  (Raise (mkExn ParserError "Error tokenizing data"),
   logged ERROR ("Error parsing the file: " +:+ "input_data.csv") bad_text_world).
Proof.
  apply (load_data_parse_error "input_data.csv" bad_text_world
           (mkExn ParserError "Error tokenizing data") bad_text_world).
  - vm_compute. reflexivity.
  - reflexivity.
Defined.

(** X6. Whenever read_csv raises an exception that is neither a
    FileNotFoundError nor a ParserError, load_data logs it as an unknown
    error, with the text of the exception, and re-raises it.  This is what
    happens to a file without a header line: the EmptyDataError that the
    parser raises for it is not a ParserError. *)
Theorem load_data_unknown_error file_path w e w1 :
  read_csv file_path w = (Raise e, w1) ->
  isinstance e FileNotFoundError = false ->
  isinstance e ParserError = false ->
  load_data file_path w =
  (Raise e, logged ERROR ("An unknown error occurred while loading data: " +:+ msg e) w1).
Proof.
  intros Hread H1 H2. unfold load_data, try_except, mbind, M_bind.
  by rewrite Hread, H1, H2.
Qed.

Lemma load_data_unknown_error_witness :
  load_data "input_data.csv" empty_file_world =
  (Raise (mkExn EmptyDataError "No columns to parse from file"),
   logged ERROR
     ("An unknown error occurred while loading data: " +:+
      msg (mkExn EmptyDataError "No columns to parse from file"))
     empty_file_world).
Proof.
  apply (load_data_unknown_error "input_data.csv" empty_file_world
           (mkExn EmptyDataError "No columns to parse from file") empty_file_world).
  - vm_compute. reflexivity.
  - reflexivity.
  - reflexivity.
Defined.

(** ** Validation *)

Lemma positions_two_elem_of name d j1 j2 ps :
  positions name d = j1 :: j2 :: ps -> name ∈ columns d.
Proof.
  intros H. eapply list_elem_of_lookup_2, (positions_from_lookup 0 name _ j1).
  simpl. fold (positions name d). rewrite H. by apply elem_of_cons; left.
Qed.

Lemma validate_data_no_age_run data w :
  "age" ∉ columns data ->
  validate_data data w = (Ok tt, logged INFO "Data validation completed." w).
Proof.
  intros H. unfold validate_data, try_except, mbind, M_bind.
  by rewrite bool_decide_eq_false_2.
Qed.

(** X7. A table without a column labelled "age" passes validate_data,
    whatever it holds: the check is by the exact label. *)
Theorem validate_data_without_age data w :
  "age" ∉ columns data ->
  validate_data data w = (Ok tt, logged INFO "Data validation completed." w).
Proof.
  intros H. unfold validate_data, try_except, mbind, M_bind.
  rewrite bool_decide_eq_false_2 by exact H. reflexivity.
Qed.

Lemma validate_data_without_age_witness :
  validate_data no_ages (mkWorld ∅ []) =
  (Ok tt, logged INFO "Data validation completed." (mkWorld ∅ [])).
Proof.
  apply (validate_data_without_age no_ages (mkWorld ∅ [])).
  vm_compute. intros H. repeat (apply elem_of_cons in H as [H | H]; [discriminate H |]).
  by apply elem_of_nil in H.
Defined.

Lemma column_cells_elem_of j d c :
  c ∈ column_cells j d <-> exists r, r ∈ rows d /\ cells r !! j = Some c.
Proof. unfold column_cells. by rewrite list_elem_of_omap. Qed.

(** X8. When exactly one column is labelled "age", its dtype is int64 and
    every value in it is an integer that is not negative, validate_data
    succeeds. *)
Theorem validate_data_accepts_ages data j w :
  positions "age" data = [j] ->
  dtypes data !! j = Some Int64 ->
  (forall r c, r ∈ rows data -> cells r !! j = Some c ->
               exists z, c = VInt z /\ (0 <= z)%Z) ->
  validate_data data w = (Ok tt, logged INFO "Data validation completed." w).
Proof.
  intros Hpos Hdt Hall. rewrite (validate_data_one_age _ _ _ Hpos), Hdt. simpl.
  destruct (existsb negative (column_cells j data)) eqn:E; [| done].
  apply existsb_exists in E as (c & Hc & Hneg).
  apply list_elem_of_In, column_cells_elem_of in Hc as (r & Hr & Hc).
  destruct (Hall _ _ Hr Hc) as (z & -> & Hz). simpl in Hneg.
  apply Z.ltb_lt in Hneg. lia.
Qed.

Lemma validate_data_accepts_ages_witness :
  validate_data good_ages (mkWorld ∅ []) =
  (Ok tt, logged INFO "Data validation completed." (mkWorld ∅ [])).
Proof.
  apply (validate_data_accepts_ages good_ages 1 (mkWorld ∅ []));
    [reflexivity | reflexivity |].
  intros r c Hr Hc.
  repeat (apply elem_of_cons in Hr as [-> | Hr];
          [injection Hc as <-; eexists; split; [reflexivity | lia] |]).
  by apply elem_of_nil in Hr.
Defined.

(** X9. When exactly one column is labelled "age" and its dtype is int64,
    any value below zero in it makes validate_data log the error and raise
    ValueError("Age column contains negative values"). *)
Theorem validate_data_rejects_negative data j r z w :
  positions "age" data = [j] ->
  dtypes data !! j = Some Int64 ->
  r ∈ rows data -> cells r !! j = Some (VInt z) -> (z < 0)%Z ->
  validate_data data w =
  (Raise (mkExn ValueError "Age column contains negative values"),
   logged ERROR "Data validation error: Age column contains negative values" w).
Proof.
  intros Hpos Hdt Hr Hc Hz. rewrite (validate_data_one_age _ _ _ Hpos), Hdt. simpl.
  assert (E : existsb negative (column_cells j data) = true); [| by rewrite E].
  apply existsb_exists. exists (VInt z). split.
  - apply list_elem_of_In, column_cells_elem_of. eauto.
  - simpl. by apply Z.ltb_lt.
Qed.

Lemma validate_data_rejects_negative_witness :
  validate_data bad_ages (mkWorld ∅ []) =
  (Raise (mkExn ValueError "Age column contains negative values"),
   logged ERROR "Data validation error: Age column contains negative values"
     (mkWorld ∅ [])).
Proof.
  apply (validate_data_rejects_negative bad_ages 1 (mkRow 1 [VStr "Bob"; VInt (-7)]) (-7)
           (mkWorld ∅ []));
    [reflexivity | reflexivity | | reflexivity | lia].
  apply elem_of_cons; right. by apply elem_of_cons; left.
Defined.

Lemma validate_data_many_ages_run data w :
  (2 <= length (positions "age" data))%nat ->
  validate_data data w =
  (Raise (mkExn AttributeError "'DataFrame' object has no attribute 'dtype'"),
   logged ERROR
     "An unknown error occurred during data validation: 'DataFrame' object has no attribute 'dtype'"
     w).
Proof.
  intros Hlen. destruct (positions "age" data) as [|j1 [|j2 ps]] eqn:Hpos;
    [simpl in Hlen; lia | simpl in Hlen; lia |].
  unfold validate_data, try_except, mbind, M_bind.
  rewrite bool_decide_eq_true_2 by (by eapply positions_two_elem_of).
  unfold getitem. by rewrite Hpos.
Qed.

(** X10. When two or more columns are labelled "age", validate_data fails
    whatever they hold: [data['age']] is a frame, the access to its dtype
    raises AttributeError, which is logged as an unknown error and
    re-raised. *)
Theorem validate_data_repeated_age data w :
  (2 <= length (positions "age" data))%nat ->
  validate_data data w =
  (Raise (mkExn AttributeError "'DataFrame' object has no attribute 'dtype'"),
   logged ERROR
     "An unknown error occurred during data validation: 'DataFrame' object has no attribute 'dtype'"
     w).
Proof.
  intros Hlen. destruct (positions "age" data) as [|j1 [|j2 ps]] eqn:Hpos;
    [simpl in Hlen; lia | simpl in Hlen; lia |].
  assert (Hin : "age" ∈ columns data) by (by eapply positions_two_elem_of).
  unfold validate_data, try_except, mbind, M_bind.
  rewrite bool_decide_eq_true_2 by exact Hin.
  unfold getitem. rewrite Hpos. reflexivity.
Qed.

Lemma validate_data_repeated_age_witness :
  validate_data two_ages (mkWorld ∅ []) =
  (Raise (mkExn AttributeError "'DataFrame' object has no attribute 'dtype'"),
   logged ERROR
     "An unknown error occurred during data validation: 'DataFrame' object has no attribute 'dtype'"
     (mkWorld ∅ [])).
Proof.
  apply (validate_data_repeated_age two_ages (mkWorld ∅ [])). vm_compute. lia.
Defined.

(** X11. validate_data succeeds in exactly two cases: no column is labelled
    "age", or exactly one is, its dtype is an integer dtype and none of its
    values is below zero. *)
Theorem validate_data_succeeds_iff data w :
  (exists w', validate_data data w = (Ok tt, w')) <->
  "age" ∉ columns data \/
  exists j, positions "age" data = [j] /\
            is_integer_dtype (default Object (dtypes data !! j)) = true /\
            existsb negative (column_cells j data) = false.
Proof.
  split.
  - intros [w' H]. destruct (decide ("age" ∈ columns data)) as [Hin | Hnin]; [| by left].
    right. destruct (positions "age" data) as [|j [|j2 ps]] eqn:Hpos.
    + unfold validate_data, try_except, mbind, M_bind, getitem in H.
      rewrite bool_decide_eq_true_2, Hpos in H by done. discriminate H.
    + exists j. split; [done |]. rewrite (validate_data_one_age _ _ _ Hpos) in H.
      destruct (is_integer_dtype _); [| discriminate H].
      destruct (existsb negative _); [discriminate H | done].
    + rewrite validate_data_many_ages_run in H by (rewrite Hpos; simpl; lia).
      discriminate H.
  - intros [Hnin | (j & Hpos & Hint & Hneg)].
    + eexists. by apply validate_data_no_age_run.
    + eexists. by rewrite (validate_data_one_age _ _ _ Hpos), Hint, Hneg.
Qed.

(** ** Cleansing, further *)

Lemma cleansed_no_missing data r c :
  r ∈ rows (drop_duplicates (fillna_str "" (fillna_series (df_median data) data))) ->
  c ∈ cells r -> isna c = false.
Proof.
  rewrite cleansed_rows. intros Hr%drop_dups_elem_of Hc.
  apply list_elem_of_fmap in Hr as (r0 & -> & _). unfold filled_row in Hc.
  cbn [cells] in Hc.
  apply list_elem_of_fmap in Hc as (c0 & -> & _). by destruct (isna c0) eqn:E.
Qed.

Lemma imap_fixed {A} (f : nat -> A -> A) (l : list A) :
  (forall i x, l !! i = Some x -> f i x = x) -> imap f l = l.
Proof.
  intros H. apply list_eq. intros i. rewrite list_lookup_imap.
  destruct (l !! i) as [x|] eqn:E; [| done]. cbn. by rewrite (H i x E).
Qed.

Lemma map_fixed {A} (f : A -> A) (l : list A) :
  (forall x, x ∈ l -> f x = x) -> List.map f l = l.
Proof.
  intros H. induction l as [|x l IH]; simpl; [done |].
  rewrite (H x) by (by apply elem_of_cons; left). f_equal.
  apply IH. intros y Hy. apply H. by apply elem_of_cons; right.
Qed.

(** Without a missing cell, neither fill changes anything. *)
Lemma fillna_series_clean value d :
  (forall r c, r ∈ rows d -> c ∈ cells r -> isna c = false) ->
  fillna_series value d = d.
Proof.
  intros H. destruct d as [cols dts rs]. unfold fillna_series. cbn [columns dtypes rows] in *.
  f_equal. apply map_fixed. intros [l cs] Hr. cbn [label cells]. f_equal.
  apply imap_fixed. intros j c Hc.
  assert (Hna : isna c = false).
  { apply (H _ _ Hr). cbn [cells]. by eapply list_elem_of_lookup_2. }
  destruct (cols !! j); [by apply fold_fill_not_na | done].
Qed.

Lemma column_cells_no_missing j d :
  (forall r c, r ∈ rows d -> c ∈ cells r -> isna c = false) ->
  existsb isna (column_cells j d) = false.
Proof.
  intros H. destruct (existsb isna (column_cells j d)) eqn:E; [| done].
  apply existsb_exists in E as (c & Hc & Hna).
  apply list_elem_of_In in Hc. unfold column_cells in Hc.
  apply list_elem_of_omap in Hc as (r & Hr & Hc).
  rewrite (H r c Hr) in Hna; [done | by eapply list_elem_of_lookup_2].
Qed.

Lemma fillna_str_clean s d :
  (forall r c, r ∈ rows d -> c ∈ cells r -> isna c = false) ->
  fillna_str s d = d.
Proof.
  intros H. unfold fillna_str.
  assert (Hd : imap (fun j dt => if existsb isna (column_cells j d) then Object else dt)
                 (dtypes d) = dtypes d).
  { apply imap_fixed. intros j dt _. by rewrite column_cells_no_missing. }
  rewrite Hd. destruct d as [cols dts rs]. cbn [columns dtypes rows] in *.
  f_equal. apply map_fixed. intros [l cs] Hr. cbn [label cells]. f_equal.
  apply map_fixed. intros c Hc. by rewrite (H _ _ Hr Hc).
Qed.

Lemma drop_dups_idem seen rs :
  drop_dups seen (drop_dups seen rs) = drop_dups seen rs.
Proof.
  revert seen. induction rs as [|r rs IH]; intros seen; simpl; [done |].
  destruct (existsb (cells_eqb (cells r)) seen) eqn:E; [apply IH |].
  simpl. rewrite E. f_equal. apply IH.
Qed.

(** X12. cleanse_data is idempotent: run on the table it returned, it
    returns that table unchanged (labels, dtypes, rows and their index
    labels). *)
Theorem cleanse_data_idempotent data w :
  exists d1 w1 d2 w2,
    cleanse_data data w = (Ok d1, w1) /\
    cleanse_data d1 w1 = (Ok d2, w2) /\
    d2 = d1.
Proof.
  eexists _, _, _, _. split; [apply cleanse_data_run |].
  split; [apply cleanse_data_run |].
  set (d1 := drop_duplicates (fillna_str "" (fillna_series (df_median data) data))).
  assert (Hclean : forall r c, r ∈ rows d1 -> c ∈ cells r -> isna c = false)
    by apply cleansed_no_missing.
  rewrite (fillna_series_clean _ d1 Hclean), (fillna_str_clean _ d1 Hclean).
  unfold drop_duplicates at 1.
  assert (Hrows : drop_dups [] (rows d1) = rows d1).
  { unfold d1 at 1 2. unfold drop_duplicates at 1 2. cbn [rows]. apply drop_dups_idem. }
  rewrite Hrows. by destruct d1.
Qed.

(** The walk through the Series leaves a cell as it is or puts a number in
    place of a missing one. *)
Lemma fold_fill_shape name value c :
  fold_left (fill_cell name) value c = c \/
  (isna c = true /\ exists m, fold_left (fill_cell name) value c = VFloat m).
Proof.
  revert c. induction value as [|[k [m|]] value IH]; intros c; simpl; [by left | |].
  - destruct (isna c && String.eqb k name) eqn:E; [| apply IH].
    apply andb_prop in E as [Hna _]. right. split; [done |].
    exists m. by apply fold_fill_not_na.
  - apply IH.
Qed.

Lemma cells_filled_row_lookup data r j c' :
  cells (filled_row data r) !! j = Some c' ->
  exists c, cells r !! j = Some c /\
    c' = (let c1 := match columns data !! j with
                    | Some name => fold_left (fill_cell name) (df_median data) c
                    | None => c
                    end in
          if isna c1 then VStr "" else c1).
Proof.
  destruct (cells r !! j) as [c|] eqn:Hc.
  - rewrite (filled_row_lookup _ _ _ _ Hc). intros [= <-]. eauto.
  - intros H. apply lookup_lt_Some in H. rewrite filled_row_length in H.
    apply lookup_ge_None in Hc. lia.
Qed.

Lemma well_formed_length d r :
  well_formed d = true -> r ∈ rows d -> length (dtypes d) = length (cells r).
Proof.
  unfold well_formed. intros [_ H]%andb_prop Hr. rewrite forallb_forall in H.
  by apply row_fits_length, H, list_elem_of_In.
Qed.

Lemma cleansed_well_formed data :
  well_formed data = true ->
  well_formed (drop_duplicates (fillna_str "" (fillna_series (df_median data) data)))
  = true.
Proof.
  intros Hwf. unfold well_formed. apply andb_true_intro. split.
  { cbn [dtypes columns drop_duplicates fillna_str fillna_series].
    rewrite length_imap. unfold well_formed in Hwf. by apply andb_prop in Hwf as [? _]. }
  apply forallb_forall. intros r' Hr'%list_elem_of_In.
  rewrite cleansed_rows in Hr'. apply drop_dups_elem_of in Hr'.
  apply list_elem_of_fmap in Hr' as (r & -> & Hr).
  cbn [dtypes drop_duplicates fillna_str].
  apply row_fits_intro.
  { rewrite length_imap, filled_row_length. cbn [dtypes fillna_series].
    by apply well_formed_length. }
  intros j dt' c'. rewrite list_lookup_imap. cbn [dtypes fillna_series].
  destruct (dtypes data !! j) as [dt|] eqn:Hdt; [| done].
  cbn [fmap option_fmap option_map]. intros [= <-].
  intros (c & Hc & ->)%cells_filled_row_lookup.
  destruct (existsb isna _) eqn:Ena; [done |].
  pose proof (well_formed_cell _ _ _ _ _ Hwf Hr Hdt Hc) as Hfit.
  set (c1 := match columns data !! j with
             | Some name => fold_left (fill_cell name) (df_median data) c
             | None => c
             end).
  assert (Hc1 : isna c1 = false).
  { eapply (existsb_false_elem_of _ _ _ Ena). apply column_cells_elem_of.
    exists (mkRow (label r)
              (imap (fun j c => match columns data !! j with
                                | Some name => fold_left (fill_cell name) (df_median data) c
                                | None => c
                                end) (cells r))).
    split.
    - cbn [rows fillna_series].
      apply (list_elem_of_fmap_2
               (fun r => mkRow (label r)
                  (imap (fun j c => match columns data !! j with
                                    | Some name =>
                                        fold_left (fill_cell name) (df_median data) c
                                    | None => c
                                    end) (cells r)))). done.
    - cbn [cells]. by rewrite list_lookup_imap, Hc. }
  cbn zeta. fold c1. rewrite Hc1. subst c1.
  destruct (columns data !! j) as [name|]; [| done].
  destruct (fold_fill_shape name (df_median data) c) as [-> | (Hna & m & ->)]; [done |].
  by destruct c, dt.
Qed.

(** X13. cleanse_data keeps a table well-formed: what it returns still has
    one dtype per label, and in every row one cell per column, of the
    column's dtype. *)
Theorem cleanse_data_well_formed data w :
  well_formed data = true ->
  exists d' w', cleanse_data data w = (Ok d', w') /\ well_formed d' = true.
Proof.
  intros Hwf. eexists _, _. split; [apply cleanse_data_run |].
  by apply cleansed_well_formed.
Qed.

Lemma cleanse_data_well_formed_witness :
  exists d' w', cleanse_data gaps (mkWorld ∅ []) = (Ok d', w') /\ well_formed d' = true.
Proof. apply (cleanse_data_well_formed gaps (mkWorld ∅ [])). reflexivity. Defined.

Lemma positions_from_elem i name cols k :
  cols !! k = Some name -> (i + k)%nat ∈ positions_from i name cols.
Proof.
  revert i k. induction cols as [|c cols IH]; intros i k; simpl; [done |].
  destruct k as [|k]; simpl.
  - intros [= ->]. rewrite String.eqb_refl, Nat.add_0_r. by apply elem_of_cons; left.
  - intros H. replace (i + S k)%nat with (S i + k)%nat by lia.
    destruct (String.eqb c name); [apply elem_of_cons; right |]; by apply IH.
Qed.

Lemma df_median_elem_of d k v :
  (k, v) ∈ df_median d ->
  exists i dt, columns d !! i = Some k /\ dtypes d !! i = Some dt /\
               numeric dt = true /\ v = column_median i d.
Proof.
  unfold df_median. intros (x & Hx & Hid)%list_elem_of_omap. cbn in Hid. subst x.
  apply list_elem_of_lookup_1 in Hx as [i Hi]. rewrite list_lookup_imap in Hi.
  destruct (zip (columns d) (dtypes d) !! i) as [[n t]|] eqn:Hz; [| done].
  cbn in Hi. apply lookup_zip_with_Some in Hz as (n' & t' & [= <- <-] & Hn & Ht).
  destruct (numeric t) eqn:Hnum; [| done]. injection Hi as <- <-.
  by exists i, t.
Qed.

Lemma fold_fill_no_entry name value c :
  (forall m, (name, Some m) ∉ value) ->
  fold_left (fill_cell name) value c = c.
Proof.
  revert c. induction value as [|[k [m|]] value IH]; intros c H; simpl; [done | |].
  - destruct (String.eqb_spec k name) as [-> | Hne].
    + destruct (H m). by apply elem_of_cons; left.
    + rewrite andb_false_r. apply IH. intros m' Hm'. apply (H m').
      by apply elem_of_cons; right.
  - apply IH. intros m' Hm'. apply (H m'). by apply elem_of_cons; right.
Qed.

(** The Series of medians has nothing to fill a column with when the
    column alone carries its label and is not numeric or has no median. *)
Lemma no_median_entry data name j dt :
  positions name data = [j] ->
  dtypes data !! j = Some dt ->
  numeric dt = false \/ column_median j data = None ->
  forall m, (name, Some m) ∉ df_median data.
Proof.
  intros Hpos Hdt Hcase m (i & dt' & Hi & Hdt' & Hnum & Hm)%df_median_elem_of.
  assert (i = j) as ->.
  { pose proof (positions_from_elem 0 name (columns data) i Hi) as Hin.
    simpl in Hin. fold (positions name data) in Hin. rewrite Hpos in Hin.
    by apply list_elem_of_singleton in Hin. }
  rewrite Hdt in Hdt'. injection Hdt' as <-.
  destruct Hcase as [Hn | Hn]; congruence.
Qed.

(** X14. The second fill.  In a column that alone carries its label and
    that is not numeric, or is numeric without any value, cleanse_data puts
    the empty string in every missing cell and keeps the other cells: the
    rows returned are, in order, among the rows of the input so filled, and
    every row so filled has its values in one of them.  When a cell was
    missing the column is an object column afterwards. *)
Theorem cleanse_data_fills_with_empty_string data name j dt w :
  positions name data = [j] ->
  dtypes data !! j = Some dt ->
  numeric dt = false \/ column_median j data = None ->
  exists d' w' filled,
    cleanse_data data w = (Ok d', w') /\
    Forall2 (fun r r' =>
               label r' = label r /\
               forall c, cells r !! j = Some c ->
                         cells r' !! j = Some (if isna c then VStr "" else c))
            (rows data) filled /\
    rows d' `sublist_of` filled /\
    (forall r', r' ∈ filled ->
                exists r'', r'' ∈ rows d' /\ cells_eqb (cells r') (cells r'') = true) /\
    ((exists r, r ∈ rows data /\ cells r !! j = Some NaN) ->
     dtypes d' !! j = Some Object).
Proof.
  intros Hpos Hdt Hcase.
  pose proof (no_median_entry _ _ _ _ Hpos Hdt Hcase) as Hno.
  exists (drop_duplicates (fillna_str "" (fillna_series (df_median data) data))),
    (logged INFO "Data cleansing completed." w), (filled_row data <$> rows data).
  split; [apply cleanse_data_run |]. split; [| split; [| split]].
  - apply Forall2_fmap_r, Forall_Forall2_diag, Forall_forall. intros r _.
    split; [done |]. intros c Hc.
    rewrite (filled_row_lookup _ _ _ _ Hc), (positions_lookup _ _ _ Hpos). cbn zeta.
    rewrite (fold_fill_no_entry _ _ _ Hno). by destruct (isna c) eqn:E; rewrite ?E.
  - rewrite cleansed_rows. apply drop_dups_sublist.
  - rewrite cleansed_rows. intros r' Hr'.
    destruct (drop_dups_covers [] _ _ Hr') as [(s & Hs & _) | Hcov]; [| done].
    by apply elem_of_nil in Hs.
  - intros (r & Hr & Hc). cbn [dtypes drop_duplicates fillna_str].
    rewrite list_lookup_imap. cbn [dtypes fillna_series]. rewrite Hdt.
    cbn [fmap option_fmap option_map].
    assert (E : existsb isna (column_cells j (fillna_series (df_median data) data)) = true);
      [| by rewrite E].
    apply existsb_exists. exists NaN. split; [| done].
    apply list_elem_of_In, column_cells_elem_of.
    exists (mkRow (label r)
              (imap (fun j c => match columns data !! j with
                                | Some name => fold_left (fill_cell name) (df_median data) c
                                | None => c
                                end) (cells r))).
    split.
    + cbn [rows fillna_series].
      apply (list_elem_of_fmap_2
               (fun r => mkRow (label r)
                  (imap (fun j c => match columns data !! j with
                                    | Some name =>
                                        fold_left (fill_cell name) (df_median data) c
                                    | None => c
                                    end) (cells r)))). done.
    + cbn [cells]. rewrite list_lookup_imap, Hc, (positions_lookup _ _ _ Hpos).
      cbn [fmap option_fmap option_map]. by rewrite (fold_fill_no_entry _ _ _ Hno).
Qed.

Lemma cleanse_data_fills_with_empty_string_witness :
  exists d' w' filled,
    cleanse_data gaps (mkWorld ∅ []) = (Ok d', w') /\
    Forall2 (fun r r' =>
               label r' = label r /\
               forall c, cells r !! 1%nat = Some c ->
                         cells r' !! 1%nat = Some (if isna c then VStr "" else c))
            (rows gaps) filled /\
    rows d' `sublist_of` filled /\
    (forall r', r' ∈ filled ->
                exists r'', r'' ∈ rows d' /\ cells_eqb (cells r') (cells r'') = true) /\
    ((exists r, r ∈ rows gaps /\ cells r !! 1%nat = Some NaN) ->
     dtypes d' !! 1%nat = Some Object).
Proof.
  apply (cleanse_data_fills_with_empty_string gaps "score" 1 Float64 (mkWorld ∅ []));
    [reflexivity | reflexivity | right; reflexivity].
Defined.

(** X15. cleanse_data loses no row but to an equal one: for every row of
    the input, the table returned holds a row with the same values as that
    row has after the fills. *)
Theorem cleanse_data_keeps_every_value data w :
  exists d' w',
    cleanse_data data w = (Ok d', w') /\
    forall r, r ∈ rows data ->
      exists r', r' ∈ rows d' /\
                 cells_eqb (cells (filled_row data r)) (cells r') = true.
Proof.
  eexists _, _. split; [apply cleanse_data_run |]. intros r Hr.
  rewrite cleansed_rows.
  assert (Hf : filled_row data r ∈ List.map (filled_row data) (rows data))
    by (by apply list_elem_of_fmap_2).
  destruct (drop_dups_covers [] _ _ Hf) as [(s & Hs & _) | H]; [| done].
  by apply elem_of_nil in Hs.
Qed.

(** X16. cleanse_data never drops the first row and never returns more
    rows than it was given: the first row returned is the first row of the
    input after the fills, and an empty table stays empty. *)
Theorem cleanse_data_keeps_first_row data w :
  exists d' w',
    cleanse_data data w = (Ok d', w') /\
    head (rows d') = filled_row data <$> head (rows data) /\
    (length (rows d') <= length (rows data))%nat.
Proof.
  eexists _, _. split; [apply cleanse_data_run |]. rewrite cleansed_rows. split.
  - by destruct (rows data).
  - etrans; [apply sublist_length, drop_dups_sublist |]. by rewrite length_map.
Qed.

(** X17. A column without a missing cell goes through cleanse_data as it
    is: it keeps its dtype, and every row returned holds in it the value of
    the input row it comes from. *)
Theorem cleanse_data_keeps_complete_column data j w :
  (forall r c, r ∈ rows data -> cells r !! j = Some c -> isna c = false) ->
  exists d' w',
    cleanse_data data w = (Ok d', w') /\
    dtypes d' !! j = dtypes data !! j /\
    forall r', r' ∈ rows d' ->
      exists r, r ∈ rows data /\ label r' = label r /\ cells r' !! j = cells r !! j.
Proof.
  intros Hfull. eexists _, _. split; [apply cleanse_data_run |]. split.
  - cbn [dtypes drop_duplicates fillna_str]. rewrite list_lookup_imap.
    cbn [dtypes fillna_series].
    destruct (dtypes data !! j) as [dt|]; [| done]. cbn [fmap option_fmap option_map].
    destruct (existsb isna _) eqn:E; [| done].
    apply existsb_exists in E as (c & Hc & Hna).
    apply list_elem_of_In, column_cells_elem_of in Hc as (r1 & Hr1 & Hc).
    cbn [rows fillna_series] in Hr1.
    apply list_elem_of_fmap in Hr1 as (r & -> & Hr). cbn [cells] in Hc.
    rewrite list_lookup_imap in Hc.
    destruct (cells r !! j) as [c0|] eqn:Hc0; [| done].
    cbn [fmap option_fmap option_map] in Hc. injection Hc as <-.
    pose proof (Hfull _ _ Hr Hc0) as Hna0.
    destruct (columns data !! j); [rewrite fold_fill_not_na in Hna by done |];
      congruence.
  - intros r'. rewrite cleansed_rows. intros Hr'%drop_dups_elem_of.
    apply list_elem_of_fmap in Hr' as (r & -> & Hr).
    exists r. split; [done |]. split; [done |].
    destruct (cells r !! j) as [c|] eqn:Hc.
    + apply filled_row_keeps; eauto.
    + apply lookup_ge_None. rewrite filled_row_length. by apply lookup_ge_None.
Qed.

Lemma cleanse_data_keeps_complete_column_witness :
  exists d' w',
    cleanse_data good_ages (mkWorld ∅ []) = (Ok d', w') /\
    dtypes d' !! 1%nat = dtypes good_ages !! 1%nat /\
    forall r', r' ∈ rows d' ->
      exists r, r ∈ rows good_ages /\ label r' = label r /\
                cells r' !! 1%nat = cells r !! 1%nat.
Proof.
  apply (cleanse_data_keeps_complete_column good_ages 1 (mkWorld ∅ [])).
  intros r c Hr Hc.
  repeat (apply elem_of_cons in Hr as [-> | Hr]; [by injection Hc as <- |]).
  by apply elem_of_nil in Hr.
Defined.

(** ** Saving *)

(** X18. save_data passes on what to_csv did: it returns when to_csv
    returns and raises the same exception when to_csv raises, and leaves
    the world as to_csv left it but for one log record: the INFO record
    "Data saved successfully to <path>" when to_csv returned, and otherwise
    the ERROR record "An error occurred while saving data: ..." with the
    text of the exception. *)
Theorem save_data_reports_to_csv data output_path w :
  save_data data output_path w =
  ((to_csv data output_path w).1,
   logged (outcome_level (to_csv data output_path w).1)
     match (to_csv data output_path w).1 with
     | Ok _ => "Data saved successfully to " +:+ output_path
     | Raise e => "An error occurred while saving data: " +:+ msg e
     end
     (to_csv data output_path w).2).
Proof.
  unfold save_data, try_except, mbind, M_bind.
  destruct (to_csv data output_path w) as [[[] | e] w1]; reflexivity.
Qed.

(** ** The stages and the world *)






(** ** The pipeline, further *)


(** A run in which the load succeeds and the cleansed table passes
    validation goes on to the save, and ends as the save ends. *)
Lemma process_pipeline_reaches_save input_file output_file header records w :
  fs w !! input_file = Some (CsvFile header records) ->
  header <> [] ->
  forallb (fun r => (length r <=? length header)%nat) records = true ->
  let d2 := {| columns := List.map standardize_name header;
               dtypes := dtypes (parse_frame header records);
               rows := rows (parse_frame header records) |} in
  let d := drop_duplicates (fillna_str "" (fillna_series (df_median d2) d2)) in
  (forall w0, validate_data d w0 = (Ok tt, logged INFO "Data validation completed." w0)) ->
  exists w4,
    (data ← load_data input_file; data ← standardize_column_names data;
     data ← cleanse_data data; validate_data data;; mret data) w = (Ok d, w4) /\
    log w4 = log w ++
             [mkLog INFO ("Data loaded successfully from " +:+ input_file);
              mkLog INFO "Column names standardized.";
              mkLog INFO "Data cleansing completed.";
              mkLog INFO "Data validation completed."] /\
    process_pipeline input_file output_file w =
      (Ok tt,
       match save_data d output_file w4 with
       | (Ok _, w5) => logged INFO "Data pipeline completed successfully." w5
       | (Raise e, w5) => logged ERROR ("Pipeline failed: " +:+ msg e) w5
       end).
Proof.
  intros Hfs Hh Hlen d2 d Hval.
  pose proof (load_data_csv input_file _ _ w Hfs Hh Hlen) as Hload.
  eexists. split; [| split].
  - unfold mbind, M_bind. rewrite Hload.
    rewrite standardize_column_names_run, cleanse_data_run.
    change (columns (parse_frame header records)) with header. fold d2. fold d.
    rewrite Hval. reflexivity.
  - cbn [log logged]. by rewrite <- !app_assoc.
  - unfold process_pipeline, try_except, mbind, M_bind. rewrite Hload.
    rewrite standardize_column_names_run, cleanse_data_run.
    change (columns (parse_frame header records)) with header. fold d2. fold d.
    rewrite Hval.
    by destruct (save_data d output_file _) as [[[] | e] w5].
Qed.

(** X22. End to end, without an age column.  When the input is a delimited
    file whose header is written in ASCII, no record of which is longer
    than the header and no label of which comes out as "age", the first
    four stages succeed: the cleansed table passes validation, their four
    INFO records are logged, and the run goes on to save that table and
    ends as the save ends, with the success record when save_data returns
    and with the "Pipeline failed" record when it raises. *)
Theorem process_pipeline_without_age_reaches_save
  input_file output_file header records w :
  fs w !! input_file = Some (CsvFile header records) ->
  header <> [] ->
  forallb (fun r => (length r <=? length header)%nat) records = true ->
  forallb ascii_only header = true ->
  "age" ∉ List.map standardize_name header ->
  exists d w4,
    (data ← load_data input_file; data ← standardize_column_names data;
     data ← cleanse_data data; validate_data data;; mret data) w = (Ok d, w4) /\
    log w4 = log w ++
             [mkLog INFO ("Data loaded successfully from " +:+ input_file);
              mkLog INFO "Column names standardized.";
              mkLog INFO "Data cleansing completed.";
              mkLog INFO "Data validation completed."] /\
    process_pipeline input_file output_file w =
      (Ok tt,
       match save_data d output_file w4 with
       | (Ok _, w5) => logged INFO "Data pipeline completed successfully." w5
       | (Raise e, w5) => logged ERROR ("Pipeline failed: " +:+ msg e) w5
       end).
Proof.
  intros Hfs Hh Hlen _ Hage. eexists.
  apply (process_pipeline_reaches_save input_file output_file header records w);
    try done.
  intros w0. by apply validate_data_no_age_run.
Qed.

Lemma process_pipeline_without_age_reaches_save_witness :
  exists d w4,
    (data ← load_data "input_data.csv"; data ← standardize_column_names data;
     data ← cleanse_data data; validate_data data;; mret data) cities_world = (Ok d, w4) /\
    log w4 = log cities_world ++
             [mkLog INFO ("Data loaded successfully from " +:+ "input_data.csv");
              mkLog INFO "Column names standardized.";
              mkLog INFO "Data cleansing completed.";
              mkLog INFO "Data validation completed."] /\
    process_pipeline "input_data.csv" "output_data.csv" cities_world =
      (Ok tt,
       match save_data d "output_data.csv" w4 with
       | (Ok _, w5) => logged INFO "Data pipeline completed successfully." w5
       | (Raise e, w5) => logged ERROR ("Pipeline failed: " +:+ msg e) w5
       end).
Proof.
  apply (process_pipeline_without_age_reaches_save "input_data.csv" "output_data.csv"
           ["City "; " Mean Temp"]
           [[FText "Oslo"; FFloat (13 # 2)]; [FText "Rome"; FEmpty];
            [FText "Oslo"; FFloat (13 # 2)]] cities_world).
  - vm_compute. reflexivity.
  - discriminate.
  - reflexivity.
  - reflexivity.
  - vm_compute. intros H.
    repeat (apply elem_of_cons in H as [H | H]; [discriminate H |]).
    by apply elem_of_nil in H.
Defined.

Lemma build_frame_int_column (P : Z -> Prop) header records j :
  (j < length header)%nat -> records <> [] ->
  Forall (fun r => exists z, r !! j = Some (FInt z) /\ in_int64 z = true /\ P z) records ->
  forall row, row ∈ rows (build_frame header records) ->
              exists z, cells row !! j = Some (VInt z) /\ P z.
Proof.
  intros Hj Hne Hall row [i Hi]%list_elem_of_lookup_1.
  assert (Hlt : (i < length records)%nat).
  { apply lookup_lt_Some in Hi. by rewrite build_frame_rows_length in Hi. }
  destruct (lookup_lt_is_Some_2 _ _ Hlt) as [f Hf].
  assert (Hall' : Forall (fun r => exists z, r !! j = Some (FInt z) /\ in_int64 z = true)
                    records).
  { eapply Forall_impl; [exact Hall |]. intros r (z & Hz & Hin & _). eauto. }
  rewrite Forall_forall in Hall.
  destruct (Hall f) as (z & Hz & _ & HP); [by eapply list_elem_of_lookup_2 |].
  destruct (build_frame_cell header records j i f z Hj Hne Hall' Hf Hz)
    as (row' & Hrow & Hcell).
  rewrite Hrow in Hi. injection Hi as <-. eauto.
Qed.

(** X23. End to end, with ages that pass.  When the header of the input
    is written in ASCII, exactly one label comes out as "age", there is at
    least one record and every field of that column is an integer that is
    not negative and within the int64 range, the first four stages succeed:
    the cleansed table passes validation, their four INFO records are
    logged, and the run goes on to save that table and ends as the save
    ends. *)
Theorem process_pipeline_with_ages_reaches_save
  input_file output_file header records j w :
  fs w !! input_file = Some (CsvFile header records) ->
  forallb (fun r => (length r <=? length header)%nat) records = true ->
  forallb ascii_only header = true ->
  positions_from 0 "age" (List.map standardize_name header) = [j] ->
  records <> [] ->
  Forall (fun r => exists z, r !! j = Some (FInt z) /\ (0 <= z < 2 ^ 63)%Z) records ->
  exists d w4,
    (data ← load_data input_file; data ← standardize_column_names data;
     data ← cleanse_data data; validate_data data;; mret data) w = (Ok d, w4) /\
    log w4 = log w ++
             [mkLog INFO ("Data loaded successfully from " +:+ input_file);
              mkLog INFO "Column names standardized.";
              mkLog INFO "Data cleansing completed.";
              mkLog INFO "Data validation completed."] /\
    process_pipeline input_file output_file w =
      (Ok tt,
       match save_data d output_file w4 with
       | (Ok _, w5) => logged INFO "Data pipeline completed successfully." w5
       | (Raise e, w5) => logged ERROR ("Pipeline failed: " +:+ msg e) w5
       end).
Proof.
  intros Hfs Hlen _ Hpos Hne Hall.
  assert (Hj : (j < length header)%nat).
  { assert (Hl : List.map standardize_name header !! j = Some "age").
    { apply (positions_from_lookup 0). simpl. rewrite Hpos.
      by apply list_elem_of_singleton. }
    apply lookup_lt_Some in Hl. by rewrite length_map in Hl. }
  assert (Hh : header <> []) by (destruct header; [simpl in Hj; lia | done]).
  assert (Hall3 : Forall (fun r => exists z, r !! j = Some (FInt z) /\
                                             in_int64 z = true /\ (0 <= z)%Z) records).
  { eapply Forall_impl; [exact Hall |]. intros r (z & Hz & H0 & H1).
    exists z. split; [done |]. split; [| done].
    apply andb_true_intro. split; [apply Z.leb_le | apply Z.ltb_lt]; lia. }
  assert (Hall2 : Forall (fun r => exists z, r !! j = Some (FInt z) /\ in_int64 z = true)
                    records).
  { eapply Forall_impl; [exact Hall3 |]. intros r (z & Hz & Hin & _). eauto. }
  eexists.
  apply (process_pipeline_reaches_save input_file output_file header records w);
    try done.
  rewrite (parse_frame_nonblank (fun _ => True) j)
    by (eapply Forall_impl; [exact Hall |]; intros ? (? & ? & _); eauto).
  set (d2 := {| columns := List.map standardize_name header;
                dtypes := dtypes (build_frame header records);
                rows := rows (build_frame header records) |}).
  assert (Hdt2 : dtypes d2 !! j = Some Int64).
  { change (dtypes (build_frame header records) !! j = Some Int64).
    by apply build_frame_dtype. }
  assert (Hrows2 : forall r, r ∈ rows d2 ->
                             exists z, cells r !! j = Some (VInt z) /\ (0 <= z)%Z).
  { change (forall r, r ∈ rows (build_frame header records) ->
                      exists z, cells r !! j = Some (VInt z) /\ (0 <= z)%Z).
    by apply build_frame_int_column. }
  assert (Hint2 : forall r, r ∈ rows d2 -> exists z, cells r !! j = Some (VInt z)).
  { intros r Hr. destruct (Hrows2 r Hr) as (z & Hz & _). eauto. }
  destruct (cleansed_integer_column d2 j Hdt2 Hint2) as [Hdt3 _].
  intros w0. rewrite (validate_data_one_age _ j) by exact Hpos.
  rewrite Hdt3. change (default Object (Some Int64)) with Int64.
  cbn [is_integer_dtype negb].
  match goal with |- context [existsb negative ?l] =>
    destruct (existsb negative l) eqn:E end; [| done].
  apply existsb_exists in E as (c & Hc & Hneg).
  apply list_elem_of_In, column_cells_elem_of in Hc as (r' & Hr' & Hc).
  rewrite cleansed_rows in Hr'. apply drop_dups_elem_of in Hr'.
  apply list_elem_of_fmap in Hr' as (r & -> & Hr).
  destruct (Hrows2 r Hr) as (z & Hz & Hnn).
  rewrite (filled_row_keeps _ _ _ _ Hz eq_refl) in Hc. injection Hc as <-.
  simpl in Hneg. apply Z.ltb_lt in Hneg. lia.
Qed.

Lemma process_pipeline_with_ages_reaches_save_witness :
  exists d w4,
    (data ← load_data "input_data.csv"; data ← standardize_column_names data;
     data ← cleanse_data data; validate_data data;; mret data) ages_world = (Ok d, w4) /\
    log w4 = log ages_world ++
             [mkLog INFO ("Data loaded successfully from " +:+ "input_data.csv");
              mkLog INFO "Column names standardized.";
              mkLog INFO "Data cleansing completed.";
              mkLog INFO "Data validation completed."] /\
    process_pipeline "input_data.csv" "output_data.csv" ages_world =
      (Ok tt,
       match save_data d "output_data.csv" w4 with
       | (Ok _, w5) => logged INFO "Data pipeline completed successfully." w5
       | (Raise e, w5) => logged ERROR ("Pipeline failed: " +:+ msg e) w5
       end).
Proof.
  apply (process_pipeline_with_ages_reaches_save "input_data.csv" "output_data.csv"
           ["Name"; "Age"] [[FText "Alice"; FInt 30]; [FText "Bob"; FInt 0]] 1 ages_world).
  - vm_compute. reflexivity.
  - reflexivity.
  - reflexivity.
  - vm_compute. reflexivity.
  - discriminate.
  - repeat constructor; eexists; (split; [reflexivity | lia]).
Defined.

(** X25. An input with an age column and no record.  The columns of a
    file that holds a header only are object columns, so when the header is
    written in ASCII and exactly one label comes out as "age" the run ends
    at validation with the integer-type error: the two ERROR records follow
    the three INFO records, and the files are as they were. *)
Theorem process_pipeline_header_only input_file output_file header j w :
  fs w !! input_file = Some (CsvFile header []) ->
  forallb ascii_only header = true ->
  positions_from 0 "age" (List.map standardize_name header) = [j] ->
  exists w',
    process_pipeline input_file output_file w = (Ok tt, w') /\
    fs w' = fs w /\
    log w' = log w ++
             [mkLog INFO ("Data loaded successfully from " +:+ input_file);
              mkLog INFO "Column names standardized.";
              mkLog INFO "Data cleansing completed.";
              mkLog ERROR "Data validation error: Age column must be integer type";
              mkLog ERROR "Pipeline failed: Age column must be integer type"].
Proof.
  intros Hfs _ Hpos.
  assert (Hj : (j < length header)%nat).
  { assert (Hl : List.map standardize_name header !! j = Some "age").
    { apply (positions_from_lookup 0). simpl. rewrite Hpos.
      by apply list_elem_of_singleton. }
    apply lookup_lt_Some in Hl. by rewrite length_map in Hl. }
  assert (Hh : header <> []) by (destruct header; [simpl in Hj; lia | done]).
  pose proof (load_data_csv input_file _ _ w Hfs Hh eq_refl) as Hload.
  unfold process_pipeline, try_except, mbind, M_bind. rewrite Hload.
  rewrite standardize_column_names_run, cleanse_data_run.
  rewrite (validate_data_one_age _ j) by exact Hpos.
  cbn [dtypes drop_duplicates fillna_str fillna_series parse_frame build_frame List.filter].
  change (List.map ?f ?l) with (f <$> l).
  rewrite list_lookup_imap, list_lookup_fmap, lookup_seq_lt by done.
  cbn. eexists. split; [reflexivity |]. split; [reflexivity |].
  cbn. by rewrite <- !app_assoc.
Qed.

Lemma process_pipeline_header_only_witness :
  exists w',
    process_pipeline "input_data.csv" "output_data.csv" header_only_world = (Ok tt, w') /\
    fs w' = fs header_only_world /\
    log w' = log header_only_world ++
             [mkLog INFO ("Data loaded successfully from " +:+ "input_data.csv");
              mkLog INFO "Column names standardized.";
              mkLog INFO "Data cleansing completed.";
              mkLog ERROR "Data validation error: Age column must be integer type";
              mkLog ERROR "Pipeline failed: Age column must be integer type"].
Proof.
  apply (process_pipeline_header_only "input_data.csv" "output_data.csv"
           ["name"; "age"] 1 header_only_world).
  - vm_compute. reflexivity.
  - reflexivity.
  - vm_compute. reflexivity.
Defined.

(** X26. From load to validation.  Whenever load_data returns a table,
    standardizing and cleansing it succeed, and the table that reaches
    validate_data is well-formed, has as many columns as the loaded table,
    all under labels in canonical form, holds no missing cell, and has no
    more rows than were loaded. *)
Theorem table_reaching_validation input_file w d1 w1 :
  load_data input_file w = (Ok d1, w1) ->
  exists d2 w2 d3 w3,
    standardize_column_names d1 w1 = (Ok d2, w2) /\
    cleanse_data d2 w2 = (Ok d3, w3) /\
    well_formed d3 = true /\
    length (columns d3) = length (columns d1) /\
    Forall canonical (columns d3) /\
    (forall r c, r ∈ rows d3 -> c ∈ cells r -> isna c = false) /\
    (length (rows d3) <= length (rows d1))%nat.
Proof.
  intros (header & records & Hfs & Hh & Hlen & -> & ->)%load_data_Ok_inv.
  eexists _, _, _, _. split; [apply standardize_column_names_run |].
  split; [apply cleanse_data_run |].
  set (d2 := {| columns := List.map standardize_name (columns (parse_frame header records));
                dtypes := dtypes (parse_frame header records);
                rows := rows (parse_frame header records) |}).
  split; [| split; [| split; [| split]]].
  - apply cleansed_well_formed.
    pose proof (parse_frame_well_formed header records Hlen) as Hwf.
    unfold well_formed in *. cbn [dtypes columns rows d2].
    by rewrite length_map.
  - cbn [columns drop_duplicates fillna_str fillna_series d2]. apply length_map.
  - cbn [columns drop_duplicates fillna_str fillna_series d2].
    apply Forall_forall. intros x (c & -> & _)%list_elem_of_fmap.
    apply standardize_name_canonical.
  - apply cleansed_no_missing.
  - rewrite cleansed_rows. etrans; [apply sublist_length, drop_dups_sublist |].
    by rewrite length_map.
Qed.

Lemma table_reaching_validation_witness :
  exists d1 w1 d2 w2 d3 w3,
    load_data "input_data.csv" alice_world = (Ok d1, w1) /\
    standardize_column_names d1 w1 = (Ok d2, w2) /\
    cleanse_data d2 w2 = (Ok d3, w3) /\
    well_formed d3 = true /\
    length (columns d3) = length (columns d1) /\
    Forall canonical (columns d3) /\
    (forall r c, r ∈ rows d3 -> c ∈ cells r -> isna c = false) /\
    (length (rows d3) <= length (rows d1))%nat.
Proof.
  eexists _, _.
  assert (H : load_data "input_data.csv" alice_world =
              (Ok (parse_frame [" Name "; " Age "]
                     [[FText "Alice"; FInt 30]; [FText "alice"; FEmpty]]),
               logged INFO ("Data loaded successfully from " +:+ "input_data.csv")
                 alice_world)) by (vm_compute; reflexivity).
  destruct (table_reaching_validation "input_data.csv" alice_world _ _ H)
    as (d2 & w2 & d3 & w3 & H').
  exists d2, w2, d3, w3. split; [exact H | exact H'].
Defined.
